(** * media_upload_api: the upload / delete workflow of [app.js]

    A shallow embedding of the Express application in [app.js]: the multer
    storage configuration (name generator and destination), the MIME type
    filter, the [POST /media] and [DELETE /media/:filename] handlers and the
    [handleError] helper, together with the parts of Node's [path], [crypto],
    [fs], of multer and of Express that these call.

    The platform is POSIX: [path] is [path.posix], the only path separator
    is the forward slash. *)

From Stdlib Require Import ZArith Lia Ascii String List.
From Stdlib Require Strings.Byte.
From stdpp Require Import gmap strings list.

Local Open Scope string_scope.
Local Open Scope Z_scope.

(** ** JavaScript values used by the handlers *)

Module Js.

(** [`${v}`] for a value that may be [undefined]. *)
Definition template (v : option string) : string :=
  match v with
  | Some s => s
  | None => "undefined"
  end.

(** [!v] for a string-or-undefined value: [undefined] and the empty
    string are falsy, every other string is truthy. *)
Definition falsy (v : option string) : bool :=
  match v with
  | None => true
  | Some s => String.eqb s ""
  end.

(** [s.slice(a, b)] for [0 <= a <= b]. *)
Definition slice (s : string) (a b : Z) : string :=
  String.substring (Z.to_nat a) (Z.to_nat (b - a)) s.

(** [arr.includes(x)] on an array of strings. *)
Fixpoint includes (arr : list string) (x : string) : bool :=
  match arr with
  | [] => false
  | y :: rest => if String.eqb y x then true else includes rest x
  end.

End Js.

(** ** Node's [path.posix] *)

Module Path.

Definition CHAR_FORWARD_SLASH : ascii := "/"%char.
Definition CHAR_DOT : ascii := "."%char.

Definition isPosixPathSeparator (c : ascii) : bool :=
  Ascii.eqb c CHAR_FORWARD_SLASH.

(** The pieces of a path between separators: [segments "a//b"] is
    ["a"; ""; "b"]. *)
Fixpoint segments (p : string) : list string :=
  match p with
  | EmptyString => [EmptyString]
  | String c rest =>
      if isPosixPathSeparator c then EmptyString :: segments rest
      else match segments rest with
           | seg :: segs => String c seg :: segs
           | [] => [String c EmptyString]
           end
  end.

(** One step of [normalizeString] on the segment that ends at the current
    separator; [res] is the result so far, innermost segment first. *)
Definition normalizeStep (allowAboveRoot : bool) (res : list string)
    (seg : string) : list string :=
  if String.eqb seg "" || String.eqb seg "." then res
  else if String.eqb seg ".." then
    match res with
    | last :: before =>
        if String.eqb last ".." then
          (if allowAboveRoot then ".." :: res else res)
        else before
    | [] => if allowAboveRoot then [".."] else []
    end
  else seg :: res.

(** [normalizeString(path, allowAboveRoot, '/', isPosixPathSeparator)],
    on the segments of [path]; the result lists the kept segments in path
    order. *)
Definition normalizeString (segs : list string) (allowAboveRoot : bool)
    : list string :=
  rev (fold_left (normalizeStep allowAboveRoot) segs []).

Definition startsWithSlash (p : string) : bool :=
  match p with
  | String c _ => isPosixPathSeparator c
  | EmptyString => false
  end.

Fixpoint endsWithSlash (p : string) : bool :=
  match p with
  | EmptyString => false
  | String c EmptyString => isPosixPathSeparator c
  | String _ rest => endsWithSlash rest
  end.

(** [path.posix.normalize]. *)
Definition normalize (p : string) : string :=
  if String.eqb p "" then "."
  else
    let isAbsolute := startsWithSlash p in
    let trailingSeparator := endsWithSlash p in
    let res := String.concat "/" (normalizeString (segments p) (negb isAbsolute)) in
    if String.eqb res "" then
      (if isAbsolute then "/" else if trailingSeparator then "./" else ".")
    else
      let res' := if trailingSeparator then res +:+ "/" else res in
      if isAbsolute then "/" +:+ res' else res'.

(** [path.posix.join(a, b)]: the non-empty arguments are joined with a
    slash and the result is normalized. *)
Definition join (a b : string) : string :=
  let joined :=
    match String.eqb a "", String.eqb b "" with
    | true, true => None
    | false, true => Some a
    | true, false => Some b
    | false, false => Some (a +:+ "/" +:+ b)
    end in
  match joined with
  | None => "."
  | Some j => normalize j
  end.

(** The loop variables of [path.posix.extname]. *)
Record ExtState := mkExt {
  startDot : Z;
  startPart : Z;
  endPos : Z;
  matchedSlash : bool;
  preDotState : Z
}.

Definition extInit : ExtState :=
  {| startDot := -1; startPart := 0; endPos := -1;
     matchedSlash := true; preDotState := 0 |}.

(** The body of the loop at index [i] on a character that is not a
    separator. *)
Definition extBody (i : Z) (code : ascii) (st : ExtState) : ExtState :=
  let st1 :=
    if endPos st =? -1 then
      {| startDot := startDot st; startPart := startPart st;
         endPos := i + 1; matchedSlash := false;
         preDotState := preDotState st |}
    else st in
  if Ascii.eqb code CHAR_DOT then
    if startDot st1 =? -1 then
      {| startDot := i; startPart := startPart st1; endPos := endPos st1;
         matchedSlash := matchedSlash st1; preDotState := preDotState st1 |}
    else if negb (preDotState st1 =? 1) then
      {| startDot := startDot st1; startPart := startPart st1;
         endPos := endPos st1; matchedSlash := matchedSlash st1;
         preDotState := 1 |}
    else st1
  else if negb (startDot st1 =? -1) then
    {| startDot := startDot st1; startPart := startPart st1;
       endPos := endPos st1; matchedSlash := matchedSlash st1;
       preDotState := -1 |}
  else st1.

(** [for (let i = path.length - 1; i >= 0; --i)]: [extLoop path n st]
    runs the iterations for the indices [n - 1] down to [0]. *)
Fixpoint extLoop (path : string) (n : nat) (st : ExtState) : ExtState :=
  match n with
  | O => st
  | S i =>
      match String.get i path with
      | None => st
      | Some code =>
          if isPosixPathSeparator code then
            if negb (matchedSlash st) then
              (* break *)
              {| startDot := startDot st; startPart := Z.of_nat i + 1;
                 endPos := endPos st; matchedSlash := matchedSlash st;
                 preDotState := preDotState st |}
            else extLoop path i st
          else extLoop path i (extBody (Z.of_nat i) code st)
      end
  end.

(** [path.posix.extname]. *)
Definition extname (path : string) : string :=
  let st := extLoop path (String.length path) extInit in
  if (startDot st =? -1) || (endPos st =? -1) || (preDotState st =? 0)
     || ((preDotState st =? 1) && (startDot st =? endPos st - 1)
         && (startDot st =? startPart st + 1))
  then ""
  else Js.slice path (startDot st) (endPos st).

End Path.

(** ** Node's [Buffer] and [crypto] *)

Module Buffer.

Definition hexDigits : string := "0123456789abcdef".

Definition hexDigit (n : N) : ascii :=
  match String.get (N.to_nat n) hexDigits with
  | Some c => c
  | None => "0"%char
  end.

(** Two lower-case hexadecimal digits, high nibble first. *)
Definition byteToHex (b : Byte.byte) : string :=
  String (hexDigit (N.div (Byte.to_N b) 16))
    (String (hexDigit (N.modulo (Byte.to_N b) 16)) EmptyString).

(** [buf.toString('hex')]. *)
Fixpoint toHex (buf : list Byte.byte) : string :=
  match buf with
  | [] => EmptyString
  | b :: rest => byteToHex b +:+ toHex rest
  end.

(** The value of a hexadecimal digit, used to read a token back. *)
Definition hexValue (c : ascii) : option N :=
  let n := N_of_ascii c in
  if (48 <=? n)%N && (n <=? 57)%N then Some (n - 48)%N
  else if (97 <=? n)%N && (n <=? 102)%N then Some (n - 87)%N
  else None.

Definition isHexDigit (c : ascii) : bool :=
  match hexValue c with Some _ => true | None => false end.

Fixpoint fromHex (s : string) : option (list Byte.byte) :=
  match s with
  | EmptyString => Some []
  | String hi (String lo rest) =>
      match hexValue hi, hexValue lo, fromHex rest with
      | Some h, Some l, Some bs =>
          match Byte.of_N (h * 16 + l) with
          | Some b => Some (b :: bs)
          | None => None
          end
      | _, _, _ => None
      end
  | String _ EmptyString => None
  end.

End Buffer.

(** ** Requests, responses and the state of the server *)

(** A JS [Error]: its message and, when a library set one, its [status]
    property. *)
Record Error := mkError {
  err_message : string;
  err_status : option Z
}.

(** [new Error(message)]. *)
Definition newError (message : string) : Error :=
  {| err_message := message; err_status := None |}.

(** The file part of a multipart request, as busboy hands it to multer. *)
Record FilePart := mkFilePart {
  fieldname : string;
  originalname : string;
  mimetype : string;
  content : list Byte.byte
}.

(** [req.file] as multer's disk storage fills it in. *)
Record MulterFile := mkMulterFile {
  mf_originalname : string;
  mf_mimetype : string;
  mf_destination : string;
  mf_filename : string;
  mf_path : string;
  mf_size : nat
}.

(** A [POST /media] request as it reaches the route, past [cors()] and
    [express.json()]: [req.protocol], [req.get('host')] and the file part
    of the body, if the body has one. The requests of this type are those
    with at most one file part; a request that [express.json()] answers
    itself never reaches the route and is none of them. *)
Record UploadRequest := mkUploadRequest {
  req_protocol : string;
  req_host : option string;
  req_part : option FilePart
}.

(** A [DELETE /media/:filename] request as the router hands it to the
    handler: [req.params.filename], decoded. *)
Record DeleteRequest := mkDeleteRequest {
  param_filename : option string
}.

Inductive Body :=
  | JsonError (error : string) (details : option string)
  | JsonMessage (message : string)
  | JsonUploaded (message : string) (name path url : string)
  | ErrorPage (err : Error).

Record Response := mkResponse {
  res_status : Z;
  res_body : Body
}.

(** What the client gets: a response, or nothing when the request ends
    in an error [err] that nobody catches, an exception thrown in a
    listener or the rejected promise of a handler. *)
Inductive Answer :=
  | Sent (res : Response)
  | Unanswered (err : Error).

Definition answerStatus (a : Answer) : option Z :=
  match a with
  | Sent res => Some (res_status res)
  | Unanswered _ => None
  end.

Definition answerBody (a : Answer) : option Body :=
  match a with
  | Sent res => Some (res_body res)
  | Unanswered _ => None
  end.

(** A row of the [uploads] table. *)
Record Row := mkRow {
  row_id : Z;
  file_name : string;
  file_path : string
}.

(** The storage actions a request performs, in the order they happen; the
    flag tells whether the action succeeded. *)
Inductive Event :=
  | FsWrite (path : string) (ok : bool)
  | FsUnlink (path : string) (ok : bool)
  | DbInsert (name path : string) (ok : bool)
  | DbDelete (name : string) (ok : bool).

(** The state the handlers act on: the files on disk, the [uploads] table
    with its auto-increment counter, the stream of bytes the system's
    secure random generator will deliver, the server console and the log
    of storage actions. *)
Record World := mkWorld {
  files : gmap string (list Byte.byte);
  uploads : list Row;
  next_id : Z;
  entropy : nat -> Byte.byte;
  console : list string;
  log : list Event
}.

(** The major version of Express the application runs on. *)
Inductive ExpressVersion := Express4 | Express5.

(** What the handlers cannot control: the directory of [app.js], the
    version of Express, the value of [NODE_ENV], and the failures of the
    disk and of the database during the request. *)
Record Env := mkEnv {
  dirname : string;
  express : ExpressVersion;
  node_env : option string;
  write_error : option string;
  unlink_error : option string;
  query_error : option string
}.

(** ** Effects: state, environment and exceptions *)

Inductive Result (A : Type) :=
  | Ok (a : A)
  | Throw (e : Error).
Arguments Ok {A} a.
Arguments Throw {A} e.

Definition M (A : Type) : Type := Env -> World -> Result A * World.

Definition ret {A} (a : A) : M A := fun _ w => (Ok a, w).

Definition throw {A} (e : Error) : M A := fun _ w => (Throw e, w).

Definition bind {A B} (m : M A) (k : A -> M B) : M B :=
  fun env w =>
    match m env w with
    | (Ok a, w') => k a env w'
    | (Throw e, w') => (Throw e, w')
    end.

(** [try { body } catch (error) { handler(error) }]. *)
Definition tryCatch {A} (body : M A) (handler : Error -> M A) : M A :=
  fun env w =>
    match body env w with
    | (Ok a, w') => (Ok a, w')
    | (Throw e, w') => handler e env w'
    end.

Definition ask : M Env := fun env w => (Ok env, w).

Definition emit (ev : Event) : M unit :=
  fun _ w =>
    (Ok tt, {| files := files w; uploads := uploads w; next_id := next_id w;
               entropy := entropy w; console := console w;
               log := log w ++ [ev] |}).

Declare Scope m_scope.
Delimit Scope m_scope with M.
Notation "x <- m ;; k" := (bind m (fun x => k))
  (at level 100, m at next level, right associativity) : m_scope.
Notation "m ;; k" := (bind m (fun _ => k))
  (at level 100, right associativity) : m_scope.
Local Open Scope m_scope.

(** ** The operating system and the database *)

Module Crypto.

(** [crypto.randomBytes(n)]: the next [n] bytes of the secure random
    stream, which advances by [n]. *)
Definition randomBytes (n : nat) : M (list Byte.byte) :=
  fun _ w =>
    (Ok (map (entropy w) (seq 0 n)),
     {| files := files w; uploads := uploads w; next_id := next_id w;
        entropy := fun i => entropy w (n + i)%nat; console := console w;
        log := log w |}).

End Crypto.

Module Fs.

(** [path.includes('\u0000')]: every function of [fs] validates its path
    and refuses one with a NUL character. *)
Fixpoint hasNullByte (path : string) : bool :=
  match path with
  | EmptyString => false
  | String c rest => Ascii.eqb c Ascii.zero || hasNullByte rest
  end.

(** The [ERR_INVALID_ARG_VALUE] error of the path validation. *)
Definition invalidPath : Error :=
  newError
    "The argument 'path' must be a string, Uint8Array, or URL without null bytes.".

(** [fs.createWriteStream(path)] with the upload piped into it. The path
    is validated when the stream is made, and a path with a NUL character
    makes [fs.createWriteStream] itself throw, before any action on the
    disk. Otherwise the result is what the stream reports: [None] is its
    [finish] event, after which the file holds exactly the bytes of the
    upload, and [Some err] is its [error] event; a write that fails is
    taken to leave the disk as it was. *)
Definition writeFile (path : string) (data : list Byte.byte)
    : M (option Error) :=
  if hasNullByte path then throw invalidPath
  else
    env <- ask ;;
    match write_error env with
    | Some msg => emit (FsWrite path false) ;; ret (Some (newError msg))
    | None =>
        (fun _ w =>
           (Ok tt, {| files := <[path := data]> (files w);
                      uploads := uploads w; next_id := next_id w;
                      entropy := entropy w; console := console w;
                      log := log w |})) ;;
        emit (FsWrite path true) ;;
        ret None
    end.

(** [fs.unlink(path, cb)]. The path is validated first, and a path with a
    NUL character makes [fs.unlink] itself throw, before any action on the
    disk and without the callback ever being called. Otherwise the
    removal fails when the file is absent or cannot be removed, and the
    result is the [err] argument of the callback. *)
Definition unlink (path : string) : M (option Error) :=
  if hasNullByte path then throw invalidPath
  else
    env <- ask ;;
    match unlink_error env with
    | Some msg => emit (FsUnlink path false) ;; ret (Some (newError msg))
    | None =>
        fun env w =>
          match files w !! path with
          | None =>
              (emit (FsUnlink path false) ;;
               ret (Some (newError "ENOENT: no such file or directory")))
                env w
          | Some _ =>
              (emit (FsUnlink path true) ;; ret None)
                env {| files := delete path (files w);
                       uploads := uploads w; next_id := next_id w;
                       entropy := entropy w; console := console w;
                       log := log w |}
          end
    end.

End Fs.

Module Pool.

(** [pool.query('INSERT INTO uploads (file_name, file_path) VALUES (?, ?)',
    [name, path])]. *)
Definition insertUpload (name path : string) : M unit :=
  env <- ask ;;
  match query_error env with
  | Some msg => emit (DbInsert name path false) ;; throw (newError msg)
  | None =>
      (fun _ w =>
         (Ok tt, {| files := files w;
                    uploads := uploads w ++
                      [{| row_id := next_id w; file_name := name;
                          file_path := path |}];
                    next_id := next_id w + 1;
                    entropy := entropy w; console := console w;
                    log := log w |})) ;;
      emit (DbInsert name path true)
  end.

(** [pool.query('DELETE FROM uploads WHERE file_name = ?', [name])]:
    the rows whose name is [name], compared character by character, go.
    A query that fails leaves the table as it was. *)
Definition deleteUpload (name : string) : M unit :=
  env <- ask ;;
  match query_error env with
  | Some msg => emit (DbDelete name false) ;; throw (newError msg)
  | None =>
      (fun _ w =>
         (Ok tt, {| files := files w;
                    uploads :=
                      List.filter
                        (fun r => negb (String.eqb (file_name r) name))
                        (uploads w);
                    next_id := next_id w;
                    entropy := entropy w; console := console w;
                    log := log w |})) ;;
      emit (DbDelete name true)
  end.

End Pool.

(** [console.error(error)]. *)
Definition console_error (e : Error) : M unit :=
  fun _ w =>
    (Ok tt, {| files := files w; uploads := uploads w; next_id := next_id w;
               entropy := entropy w; console := console w ++ [err_message e];
               log := log w |}).

(** ** multer *)

Module Multer.

(** [new MulterError('LIMIT_UNEXPECTED_FILE', field)]. *)
Definition unexpectedFile : Error := newError "Unexpected field".

(** [DiskStorage.prototype._handleFile]: ask for the destination, then
    for the file name, write the upload to their join and call back with
    the error of the stream, [inl err], or with the stored file. What
    [fs.createWriteStream] throws is not caught here. *)
Definition handleFile (destination filename : FilePart -> M string)
    (file : FilePart) : M (Error + MulterFile) :=
  dest <- destination file ;;
  name <- filename file ;;
  let finalPath := Path.join dest name in
  err <- Fs.writeFile finalPath (content file) ;;
  match err with
  | Some e => ret (inl e)
  | None =>
      ret (inr {| mf_originalname := originalname file;
                  mf_mimetype := mimetype file;
                  mf_destination := dest;
                  mf_filename := name;
                  mf_path := finalPath;
                  mf_size := List.length (content file) |})
  end.

(** [multer({ storage, fileFilter }).single(field)] on a request with at
    most one file part. The result is what the middleware passes on:
    [inl err] is [next(err)], and [inr file] is [next()] with [file] as
    [req.file]. A part without a file name is skipped, a part under
    another field name is refused, and the filter runs before the storage
    engine sees the part. Multer does this work in the listeners of the
    request's stream: what is thrown there is caught by nobody. *)
Definition single (field : string)
    (fileFilter : FilePart -> Error + bool)
    (destination filename : FilePart -> M string)
    (part : option FilePart) : M (Error + option MulterFile) :=
  match part with
  | None => ret (inr None)
  | Some file =>
      if String.eqb (originalname file) "" then ret (inr None)
      else if negb (String.eqb (fieldname file) field)
      then ret (inl unexpectedFile)
      else
        match fileFilter file with
        | inl err => ret (inl err)
        | inr false => ret (inr None)
        | inr true =>
            stored <- handleFile destination filename file ;;
            match stored with
            | inl err => ret (inl err)
            | inr f => ret (inr (Some f))
            end
        end
  end.

End Multer.

(** ** Express *)

Module Express.

(** The status the default error handler answers with: the error's own
    status when it is an error status, 500 otherwise. *)
Definition errorStatus (err : Error) : Z :=
  match err_status err with
  | Some s => if (400 <=? s) && (s <? 600) then s else 500
  | None => 500
  end.

Definition defaultErrorHandler (err : Error) : Response :=
  {| res_status := errorStatus err; res_body := ErrorPage err |}.

(** [app.get('env')]: [process.env.NODE_ENV || 'development']. *)
Definition appEnv (env : Env) : string :=
  match node_env env with
  | Some value => if String.eqb value "" then "development" else value
  | None => "development"
  end.

(** [logerror]: the application prints the error it could not handle with
    [console.error], unless its environment is [test]. *)
Definition logerror (err : Error) (env : Env) (w : World) : World :=
  if String.eqb (appEnv env) "test" then w
  else {| files := files w; uploads := uploads w; next_id := next_id w;
          entropy := entropy w; console := console w ++ [err_message err];
          log := log w |}.

(** [next(err)] in an application without error middleware: the error is
    logged and the default error handler answers. *)
Definition next (err : Error) (env : Env) (w : World) : Answer * World :=
  (Sent (defaultErrorHandler err), logerror err env w).

(** The promise of an [async] handler is rejected with [err]: Express 5
    passes the error to [next]; Express 4 does not look at the promise, so
    that nobody catches the error and no answer is ever sent. *)
Definition rejected (err : Error) (env : Env) (w : World) : Answer * World :=
  match express env with
  | Express5 => next err env w
  | Express4 => (Unanswered err, w)
  end.

(** A route with one middleware that works in the listeners of the
    request's stream, as multer does: the handler runs when the middleware
    calls [next()]; an error passed to [next], [inl err], skips the
    handler; and what the middleware throws in a listener is caught by
    nobody, so that the request is never answered. What the handler
    returns is the response it sent; what it throws rejects its promise. *)
Definition route {A} (middleware : M (Error + A)) (handler : A -> M Response)
    (env : Env) (w : World) : Answer * World :=
  match middleware env w with
  | (Throw e, w1) => (Unanswered e, w1)
  | (Ok (inl e), w1) => next e env w1
  | (Ok (inr x), w1) =>
      match handler x env w1 with
      | (Ok res, w2) => (Sent res, w2)
      | (Throw e, w2) => rejected e env w2
      end
  end.

End Express.

(** ** [app.js] *)

Module App.

(** [const uploadsDir = path.join(__dirname, 'uploads')]. *)
Definition uploadsDir (env : Env) : string :=
  Path.join (dirname env) "uploads".

(** [storage.destination]. *)
Definition destination (file : FilePart) : M string :=
  env <- ask ;;
  ret (uploadsDir env).

(** [storage.filename]: the name generator. *)
Definition filename (file : FilePart) : M string :=
  bytes <- Crypto.randomBytes 16 ;;
  let uniqueSuffix := Buffer.toHex bytes in
  let fileExtension := Path.extname (originalname file) in
  ret (uniqueSuffix +:+ fileExtension).

Definition allowedTypes : list string :=
  [ "image/jpeg";
    "image/png";
    "video/mp4";
    "video/x-msvideo";
    "video/quicktime";
    "audio/mpeg" ].

(** [fileFilter]: [inr true] is [cb(null, true)], [inl e] is [cb(e)]. *)
Definition fileFilter (file : FilePart) : Error + bool :=
  if Js.includes allowedTypes (mimetype file) then inr true
  else inl (newError
    "Invalid file type. Allowed types: JPEG, PNG, MP4, AVI, MOV, MPEG.").

(** [upload.single('file')]. *)
Definition upload (req : UploadRequest)
    : M (Error + option MulterFile) :=
  Multer.single "file" fileFilter destination filename (req_part req).

Definition handleError (error : Error) : M Response :=
  console_error error ;;
  ret {| res_status := 500;
         res_body := JsonError "Internal Server Error"
                               (Some (err_message error)) |}.

(** The handler of [POST /media]; [file] is [req.file]. *)
Definition postMediaHandler (req : UploadRequest)
    (file : option MulterFile) : M Response :=
  tryCatch
    (match file with
     | None =>
         ret {| res_status := 400;
                res_body := JsonError "No file uploaded" None |}
     | Some f =>
         let filePath := mf_path f in
         let fileUrl :=
           req_protocol req +:+ "://" +:+ Js.template (req_host req)
             +:+ "/uploads/" +:+ mf_filename f in
         Pool.insertUpload (mf_filename f) filePath ;;
         ret {| res_status := 200;
                res_body := JsonUploaded "File uploaded successfully"
                              (mf_filename f) filePath fileUrl |}
     end)
    handleError.

(** The handler of [DELETE /media/:filename]. *)
Definition deleteMediaHandler (req : DeleteRequest) : M Response :=
  let missing : M Response :=
    ret {| res_status := 400;
           res_body := JsonError "Filename is required" None |} in
  if Js.falsy (param_filename req) then missing
  else
    match param_filename req with
    | None => missing
    | Some filename =>
        env <- ask ;;
        let filePath := Path.join (uploadsDir env) filename in
        err <- Fs.unlink filePath ;;
        match err with
        | Some e =>
            ret {| res_status := 404;
                   res_body := JsonError "File not found"
                                         (Some (err_message e)) |}
        | None =>
            tryCatch
              (Pool.deleteUpload filename ;;
               ret {| res_status := 200;
                      res_body := JsonMessage "File deleted successfully" |})
              handleError
        end
    end.

(** [app.post('/media', upload.single('file'), handler)]. *)
Definition postMedia (env : Env) (w : World) (req : UploadRequest)
    : Answer * World :=
  Express.route (upload req) (postMediaHandler req) env w.

(** [app.delete('/media/:filename', handler)]. *)
Definition deleteMedia (env : Env) (w : World) (req : DeleteRequest)
    : Answer * World :=
  Express.route (ret (inr tt)) (fun _ => deleteMediaHandler req) env w.

End App.

(** ** Properties the statements below use *)

(** A status of the 400 class. *)
Definition clientError (status : Z) : Prop := 400 <= status < 500.

(** [s] has a path separator among its characters. *)
Fixpoint hasSeparator (s : string) : bool :=
  match s with
  | EmptyString => false
  | String c rest => Path.isPosixPathSeparator c || hasSeparator rest
  end.

Definition noSeparator (s : string) : Prop := hasSeparator s = false.

(** A segment that [normalizeString] keeps as a name: not empty, not [.]
    and not [..]. *)
Definition regularSegment (seg : string) : bool :=
  negb (String.eqb seg "" || String.eqb seg "." || String.eqb seg "..").

(** [p] is directory [dir] or lies below it: what follows [dir] in [p]
    never climbs. *)
Definition withinDir (dir p : string) : Prop :=
  p = dir \/
  exists rest, p = dir +:+ "/" +:+ rest /\ ~ In ".." (Path.segments rest).

(** [p] is an entry of directory [dir] itself, not of a subdirectory: a
    name without separators that is neither empty nor [.] nor [..]. *)
Definition directlyIn (dir p : string) : Prop :=
  exists name,
    regularSegment name = true /\ noSeparator name /\
    p = dir +:+ "/" +:+ name.

(** [sub] occurs in [s] as it stands. *)
Definition occursIn (sub s : string) : Prop :=
  exists before after, s = before +:+ sub +:+ after.

(** Every character of [s] is a lower-case hexadecimal digit. *)
Fixpoint allHex (s : string) : bool :=
  match s with
  | EmptyString => true
  | String c rest => Buffer.isHexDigit c && allHex rest
  end.

(** The result of [normalizeString], innermost segment first: separator-free
    names, with [..] only where the path may climb above its start and only
    at the outer end. *)
Fixpoint normalStack (allowAboveRoot : bool) (st : list string) : Prop :=
  match st with
  | [] => True
  | seg :: rest =>
      seg <> "" /\ seg <> "." /\ noSeparator seg /\
      (seg = ".." -> allowAboveRoot = true /\ Forall (eq "..") rest) /\
      normalStack allowAboveRoot rest
  end.

(** What the loop of [extname] has established about [path] once the
    iterations for the indices from [n] upwards are done without leaving
    the loop. *)
Definition extInv (path : string) (n : nat) (st : Path.ExtState) : Prop :=
  let len := Z.of_nat (String.length path) in
  (Path.endPos st = -1 ->
     Path.startDot st = -1 /\ Path.matchedSlash st = true /\
     forall k, (n <= k < String.length path)%nat ->
               String.get k path = Some Path.CHAR_FORWARD_SLASH) /\
  (Path.endPos st <> -1 ->
     Z.of_nat n < Path.endPos st <= len /\ Path.matchedSlash st = false /\
     (forall k, Z.of_nat n <= Z.of_nat k < Path.endPos st ->
                String.get k path <> Some Path.CHAR_FORWARD_SLASH) /\
     (forall k, Path.endPos st <= Z.of_nat k < len ->
                String.get k path = Some Path.CHAR_FORWARD_SLASH)) /\
  (Path.startDot st <> -1 ->
     Path.endPos st <> -1 /\
     Z.of_nat n <= Path.startDot st < Path.endPos st /\
     String.get (Z.to_nat (Path.startDot st)) path = Some Path.CHAR_DOT).

(** What holds of the loop variables when the loop of [extname] is left. *)
Definition extDone (path : string) (st : Path.ExtState) : Prop :=
  let len := Z.of_nat (String.length path) in
  Path.startDot st <> -1 -> Path.endPos st <> -1 ->
  0 <= Path.startDot st < Path.endPos st /\ Path.endPos st <= len /\
  String.get (Z.to_nat (Path.startDot st)) path = Some Path.CHAR_DOT /\
  (forall k, Path.startDot st <= Z.of_nat k < Path.endPos st ->
             String.get k path <> Some Path.CHAR_FORWARD_SLASH) /\
  (forall k, Path.endPos st <= Z.of_nat k < len ->
             String.get k path = Some Path.CHAR_FORWARD_SLASH).

(** [p] is a normalized path: the segments [segs], none of them empty or
    [.], in path order, after a slash when the path is absolute. *)
Definition normalPath (absolute : bool) (segs : list string) (p : string)
    : Prop :=
  segs <> [] /\ normalStack (negb absolute) (rev segs) /\
  p = (if absolute then "/" else "") +:+ String.concat "/" segs.

(** What [path.join(dir, name)] appends to a normalized [dir] when no
    segment of [name] is [..]: the segments of [name] that are names, each
    after a slash, and the trailing slash of [name] if it has one. *)
Definition joinedTail (name : string) : string :=
  let kept := List.filter regularSegment (Path.segments name) in
  (match kept with
   | [] => ""
   | _ :: _ => "/" +:+ String.concat "/" kept
   end) +:+ (if Path.endsWithSlash name then "/" else "").

(** The event is a metadata insert; the event is a write of a file. *)
Definition isDbInsert (ev : Event) : bool :=
  match ev with DbInsert _ _ _ => true | _ => false end.
Definition isFsWrite (ev : Event) : bool :=
  match ev with FsWrite _ _ => true | _ => false end.

(** ** What a request does, case by case *)

(** The storage name the name generator returns in world [w], and the path
    multer writes the upload to. *)
Definition storageName (w : World) (file : FilePart) : string :=
  Buffer.toHex (map (entropy w) (seq 0 16))
    +:+ Path.extname (originalname file).

Definition storagePath (env : Env) (w : World) (file : FilePart) : string :=
  Path.join (App.uploadsDir env) (storageName w file).

Definition invalidFileType : Error :=
  newError "Invalid file type. Allowed types: JPEG, PNG, MP4, AVI, MOV, MPEG.".

(** The runs of [POST /media]: the answer and the world after it. *)
Inductive UploadOutcome (env : Env) (w : World) (req : UploadRequest)
    : Answer -> World -> Prop :=
  | UploadNoFile :
      req_part req = None ->
      UploadOutcome env w req
        (Sent {| res_status := 400;
                 res_body := JsonError "No file uploaded" None |})
        w
  | UploadNoFileName (file : FilePart) :
      req_part req = Some file ->
      originalname file = "" ->
      UploadOutcome env w req
        (Sent {| res_status := 400;
                 res_body := JsonError "No file uploaded" None |})
        w
  | UploadUnexpectedField (file : FilePart) :
      req_part req = Some file ->
      originalname file <> "" ->
      fieldname file <> "file" ->
      UploadOutcome env w req
        (Sent (Express.defaultErrorHandler Multer.unexpectedFile))
        (Express.logerror Multer.unexpectedFile env w)
  | UploadFiltered (file : FilePart) :
      req_part req = Some file ->
      originalname file <> "" ->
      fieldname file = "file" ->
      Js.includes App.allowedTypes (mimetype file) = false ->
      UploadOutcome env w req
        (Sent (Express.defaultErrorHandler invalidFileType))
        (Express.logerror invalidFileType env w)
  | UploadThrown (file : FilePart) (w' : World) :
      req_part req = Some file ->
      originalname file <> "" ->
      fieldname file = "file" ->
      Js.includes App.allowedTypes (mimetype file) = true ->
      Fs.hasNullByte (storagePath env w file) = true ->
      files w' = files w -> uploads w' = uploads w ->
      next_id w' = next_id w -> console w' = console w ->
      log w' = log w ->
      UploadOutcome env w req (Unanswered Fs.invalidPath) w'
  | UploadWriteFailed (file : FilePart) (msg : string) (w' : World) :
      req_part req = Some file ->
      originalname file <> "" ->
      fieldname file = "file" ->
      Js.includes App.allowedTypes (mimetype file) = true ->
      Fs.hasNullByte (storagePath env w file) = false ->
      write_error env = Some msg ->
      files w' = files w -> uploads w' = uploads w ->
      next_id w' = next_id w -> console w' = console w ->
      log w' = (log w ++ [FsWrite (storagePath env w file) false])%list ->
      UploadOutcome env w req
        (Sent (Express.defaultErrorHandler (newError msg)))
        (Express.logerror (newError msg) env w')
  | UploadInsertFailed (file : FilePart) (msg : string) (w' : World) :
      req_part req = Some file ->
      originalname file <> "" ->
      fieldname file = "file" ->
      Js.includes App.allowedTypes (mimetype file) = true ->
      Fs.hasNullByte (storagePath env w file) = false ->
      write_error env = None ->
      query_error env = Some msg ->
      files w' = <[storagePath env w file := content file]> (files w) ->
      uploads w' = uploads w ->
      next_id w' = next_id w ->
      console w' = (console w ++ [msg])%list ->
      log w' = (log w ++ [FsWrite (storagePath env w file) true;
                          DbInsert (storageName w file)
                                   (storagePath env w file) false])%list ->
      UploadOutcome env w req
        (Sent {| res_status := 500;
                 res_body := JsonError "Internal Server Error" (Some msg) |})
        w'
  | UploadStored (file : FilePart) (w' : World) :
      req_part req = Some file ->
      originalname file <> "" ->
      fieldname file = "file" ->
      Js.includes App.allowedTypes (mimetype file) = true ->
      Fs.hasNullByte (storagePath env w file) = false ->
      write_error env = None ->
      query_error env = None ->
      files w' = <[storagePath env w file := content file]> (files w) ->
      uploads w' = (uploads w ++
                      [{| row_id := next_id w;
                          file_name := storageName w file;
                          file_path := storagePath env w file |}])%list ->
      next_id w' = next_id w + 1 ->
      console w' = console w ->
      log w' = (log w ++ [FsWrite (storagePath env w file) true;
                          DbInsert (storageName w file)
                                   (storagePath env w file) true])%list ->
      UploadOutcome env w req
        (Sent {| res_status := 200;
                 res_body :=
                   JsonUploaded "File uploaded successfully"
                     (storageName w file) (storagePath env w file)
                     (req_protocol req +:+ "://"
                        +:+ Js.template (req_host req)
                        +:+ "/uploads/" +:+ storageName w file) |})
        w'.

(** The path [DELETE /media/:filename] removes for parameter [name]. *)
Definition deletePath (env : Env) (name : string) : string :=
  Path.join (App.uploadsDir env) name.

(** The runs of [DELETE /media/:filename]. *)
Inductive DeleteOutcome (env : Env) (w : World) (req : DeleteRequest)
    : Answer -> World -> Prop :=
  | DeleteNoName :
      Js.falsy (param_filename req) = true ->
      DeleteOutcome env w req
        (Sent {| res_status := 400;
                 res_body := JsonError "Filename is required" None |})
        w
  | DeleteThrown (name : string) :
      param_filename req = Some name -> name <> "" ->
      Fs.hasNullByte (deletePath env name) = true ->
      DeleteOutcome env w req
        (fst (Express.rejected Fs.invalidPath env w))
        (snd (Express.rejected Fs.invalidPath env w))
  | DeleteUnlinkFailed (name msg : string) (w' : World) :
      param_filename req = Some name -> name <> "" ->
      Fs.hasNullByte (deletePath env name) = false ->
      (unlink_error env = Some msg \/
       unlink_error env = None /\ files w !! deletePath env name = None /\
       msg = "ENOENT: no such file or directory") ->
      files w' = files w -> uploads w' = uploads w ->
      next_id w' = next_id w -> console w' = console w ->
      log w' = (log w ++ [FsUnlink (deletePath env name) false])%list ->
      DeleteOutcome env w req
        (Sent {| res_status := 404;
                 res_body := JsonError "File not found" (Some msg) |})
        w'
  | DeleteQueryFailed (name msg : string) (w' : World) :
      param_filename req = Some name -> name <> "" ->
      Fs.hasNullByte (deletePath env name) = false ->
      unlink_error env = None ->
      files w !! deletePath env name <> None ->
      query_error env = Some msg ->
      files w' = delete (deletePath env name) (files w) ->
      uploads w' = uploads w ->
      next_id w' = next_id w ->
      console w' = (console w ++ [msg])%list ->
      log w' = (log w ++ [FsUnlink (deletePath env name) true;
                          DbDelete name false])%list ->
      DeleteOutcome env w req
        (Sent {| res_status := 500;
                 res_body := JsonError "Internal Server Error" (Some msg) |})
        w'
  | DeleteDone (name : string) (w' : World) :
      param_filename req = Some name -> name <> "" ->
      Fs.hasNullByte (deletePath env name) = false ->
      unlink_error env = None ->
      files w !! deletePath env name <> None ->
      query_error env = None ->
      files w' = delete (deletePath env name) (files w) ->
      uploads w' = List.filter
                     (fun r => negb (String.eqb (file_name r) name))
                     (uploads w) ->
      next_id w' = next_id w ->
      console w' = console w ->
      log w' = (log w ++ [FsUnlink (deletePath env name) true;
                          DbDelete name true])%list ->
      DeleteOutcome env w req
        (Sent {| res_status := 200;
                 res_body := JsonMessage "File deleted successfully" |})
        w'.

(** ** Sample data *)

Module Sample.

Definition bytes : list Byte.byte :=
  [Byte.xff; Byte.xd8; Byte.xff; Byte.xe0; Byte.x00;
   Byte.x10; Byte.x4a; Byte.x46; Byte.x49; Byte.x46].

Definition stream (i : nat) : Byte.byte :=
  match Byte.of_nat (17 * i + 3) with
  | Some b => b
  | None => Byte.x00
  end.

Definition env : Env :=
  {| dirname := "/srv/app"; express := Express5; node_env := None;
     write_error := None; unlink_error := None; query_error := None |}.

Definition world : World :=
  {| files := {[ "/srv/app/app.js" := [Byte.x2f; Byte.x2f];
                 "/srv/app/uploads/0a.png" := [Byte.x89] ]};
     uploads := [ {| row_id := 1; file_name := "0a.png";
                     file_path := "/srv/app/uploads/0a.png" |} ];
     next_id := 2;
     entropy := stream;
     console := [];
     log := [] |}.

Definition photo : FilePart :=
  {| fieldname := "file"; originalname := "photo.jpg";
     mimetype := "image/jpeg"; content := bytes |}.

Definition note : FilePart :=
  {| fieldname := "file"; originalname := "note.txt";
     mimetype := "text/plain"; content := bytes |}.

Definition request (part : option FilePart) : UploadRequest :=
  {| req_protocol := "http"; req_host := Some "localhost:3001";
     req_part := part |}.

(** [DELETE /media/..%2Fapp.js]: Express decodes the parameter. *)
Definition climbing : DeleteRequest :=
  {| param_filename := Some "../app.js" |}.

Definition stored : DeleteRequest :=
  {| param_filename := Some "0a.png" |}.

Definition unknown : DeleteRequest :=
  {| param_filename := Some "nope.png" |}.

Definition unnamed : DeleteRequest :=
  {| param_filename := Some "" |}.

End Sample.

(** ** Further notions: names, extensions and the agreement of table and disk *)

(** [s] has a dot among its characters. *)
Fixpoint hasDot (s : string) : bool :=
  match s with
  | EmptyString => false
  | String c rest => Ascii.eqb c Path.CHAR_DOT || hasDot rest
  end.

(** The loop variables of [extname] on a path without separators whose
    last dot is at index [d], once the iterations for the indices from [n]
    upwards are done. *)
Definition lastDotState (path : string) (d n : nat) : Path.ExtState :=
  let len := String.length path in
  if (d <? n)%nat then
    if (n =? len)%nat then Path.extInit
    else {| Path.startDot := -1; Path.startPart := 0;
            Path.endPos := Z.of_nat len; Path.matchedSlash := false;
            Path.preDotState := 0 |}
  else
    {| Path.startDot := Z.of_nat d; Path.startPart := 0;
       Path.endPos := Z.of_nat len; Path.matchedSlash := false;
       Path.preDotState :=
         if (n =? d)%nat then 0
         else match String.get n path with
              | Some c => if Ascii.eqb c Path.CHAR_DOT then 1 else -1
              | None => -1
              end |}.

(** A name as the name generator makes them: no separator in it, and
    neither empty nor [.] nor [..]. *)
Definition plainName (name : string) : Prop :=
  regularSegment name = true /\ noSeparator name.

(** The row records a plain name, the path of that name in the content
    directory, and a file exists at that path. *)
Definition consistentRow (env : Env) (w : World) (row : Row) : Prop :=
  plainName (file_name row) /\
  file_path row = App.uploadsDir env +:+ "/" +:+ file_name row /\
  files w !! file_path row <> None.

(** Every row of the table has its file. *)
Definition Consistent (env : Env) (w : World) : Prop :=
  forall row, In row (uploads w) -> consistentRow env w row.

(** No file of the disk has a NUL character in its path, as on every
    real disk. *)
Definition validDisk (w : World) : Prop :=
  forall path, files w !! path <> None -> Fs.hasNullByte path = false.

(** The rows of the table named [name]. *)
Definition rowsNamed (name : string) (rows : list Row) : list Row :=
  List.filter (fun r => String.eqb (file_name r) name) rows.

Module Scenario.

(** The database refuses every query. *)
Definition databaseDown : Env :=
  {| dirname := "/srv/app"; express := Express5; node_env := None;
     write_error := None; unlink_error := None;
     query_error := Some "connect ECONNREFUSED" |}.

(** The sample environment on Express 4. *)
Definition express4 : Env :=
  {| dirname := "/srv/app"; express := Express4; node_env := None;
     write_error := None; unlink_error := None; query_error := None |}.

(** [DELETE /media/a%00b]: the decoded name has a NUL character. *)
Definition nulName : string :=
  String "a"%char (String Ascii.zero (String "b"%char EmptyString)).

Definition nul : DeleteRequest :=
  {| param_filename := Some nulName |}.

(** An allowed image sent under another field name. *)
Definition avatar : FilePart :=
  {| fieldname := "avatar"; originalname := "me.png";
     mimetype := "image/png"; content := Sample.bytes |}.

Definition readme : FilePart :=
  {| fieldname := "file"; originalname := "README";
     mimetype := "audio/mpeg"; content := Sample.bytes |}.

Definition archive : FilePart :=
  {| fieldname := "file"; originalname := "backup.tar.GZ";
     mimetype := "video/mp4"; content := Sample.bytes |}.

Definition dotfile : FilePart :=
  {| fieldname := "file"; originalname := ".bashrc";
     mimetype := "video/mp4"; content := Sample.bytes |}.

Definition portrait : FilePart :=
  {| fieldname := "file"; originalname := "portrait.jpg";
     mimetype := "image/jpeg"; content := [] |}.

End Scenario.

Example extname_photo : Path.extname "photo.jpg" = ".jpg".
Proof. reflexivity. Qed.
Example extname_multi : Path.extname "a/b.c/archive.tar.GZ" = ".GZ".
Proof. reflexivity. Qed.
Example extname_dotfile : Path.extname ".bashrc" = "".
Proof. reflexivity. Qed.
Example extname_dotdot : Path.extname ".." = "".
Proof. reflexivity. Qed.
Example extname_trailing : Path.extname "a.txt//" = ".txt".
Proof. reflexivity. Qed.
Example extname_enddot : Path.extname "file." = ".".
Proof. reflexivity. Qed.
Example extname_none : Path.extname "a.b/file" = "".
Proof. reflexivity. Qed.
Example join_plain : Path.join "/srv/app" "uploads" = "/srv/app/uploads".
Proof. reflexivity. Qed.
Example join_up : Path.join "/srv/app/uploads" "../app.js" = "/srv/app/app.js".
Proof. reflexivity. Qed.
Example join_root : Path.join "/a" "../../../x/" = "/x/".
Proof. reflexivity. Qed.
Example join_rel : Path.join "a" "../../b/./c" = "../b/c".
Proof. reflexivity. Qed.

Example sample_upload_status :
  answerStatus (fst (App.postMedia Sample.env Sample.world
                       (Sample.request (Some Sample.photo)))) = Some 200.
Proof. vm_compute. reflexivity. Qed.

(** ** Strings *)

#[local] Arguments String.append !s1 s2 : simpl nomatch.

Section StringFacts.

Lemma append_nil_r (s : string) : s +:+ "" = s.
Proof. induction s as [|c s IH]; simpl; [reflexivity | now rewrite IH]. Qed.

Lemma append_assoc (a b c : string) : (a +:+ b) +:+ c = a +:+ (b +:+ c).
Proof. induction a as [|x a IH]; simpl; [reflexivity | now rewrite IH]. Qed.

Lemma append_eq_nil (a b : string) : a +:+ b = "" -> a = "" /\ b = "".
Proof. destruct a; simpl; [auto | discriminate]. Qed.

Lemma hasSeparator_append (a b : string) :
  hasSeparator (a +:+ b) = hasSeparator a || hasSeparator b.
Proof.
  induction a as [|x a IH]; simpl; [reflexivity |].
  now rewrite IH, orb_assoc.
Qed.

Lemma noSeparator_append (a b : string) :
  noSeparator a -> noSeparator b -> noSeparator (a +:+ b).
Proof.
  unfold noSeparator. intros Ha Hb.
  now rewrite hasSeparator_append, Ha, Hb.
Qed.

Lemma get_Some_lt (s : string) (k : nat) (c : ascii) :
  String.get k s = Some c -> (k < String.length s)%nat.
Proof.
  revert k. induction s as [|x s IH]; simpl; intros k H; [discriminate |].
  destruct k; [lia |]. apply IH in H. lia.
Qed.

(** A string splits around any of its slices. *)
Lemma substring_split (s : string) (a len : nat) :
  (a + len <= String.length s)%nat ->
  s = String.substring 0 a s +:+ String.substring a len s
        +:+ String.substring (a + len) (String.length s - (a + len)) s.
Proof.
  revert a len. induction s as [|x s IH]; intros a len H.
  - simpl in H. assert (a = 0%nat) by lia. assert (len = 0%nat) by lia.
    subst. reflexivity.
  - destruct a as [|a].
    + destruct len as [|len].
      * simpl. f_equal. specialize (IH 0%nat 0%nat ltac:(lia)).
        simpl in IH. rewrite Nat.sub_0_r in IH.
        destruct s; simpl in *; [reflexivity | exact IH].
      * simpl in H. specialize (IH 0%nat len ltac:(lia)).
        change (String.substring 0 0 (String x s)) with "".
        change ("" +:+ ?t) with t. simpl. f_equal.
        replace (String.substring 0 0 s) with "" in IH
          by (destruct s; reflexivity).
        exact IH.
    + simpl in H. simpl. f_equal. apply IH. lia.
Qed.

Lemma substring_length (s : string) (a len : nat) :
  (a + len <= String.length s)%nat ->
  String.length (String.substring a len s) = len.
Proof.
  revert a len. induction s as [|x s IH]; intros a len H; simpl in H.
  - assert (a = 0%nat) by lia. assert (len = 0%nat) by lia. subst.
    reflexivity.
  - destruct a as [|a]; simpl.
    + destruct len as [|len]; [reflexivity |]. simpl. f_equal.
      apply IH. lia.
    + apply IH. lia.
Qed.

Lemma get_substring (s : string) (a len k : nat) :
  (k < len)%nat ->
  String.get k (String.substring a len s) = String.get (a + k) s.
Proof.
  intros Hk. rewrite (String.substring_correct1 s a len k Hk).
  f_equal. lia.
Qed.

(** A string none of whose characters is a separator. *)
Lemma noSeparator_get (s : string) :
  (forall k, String.get k s <> Some Path.CHAR_FORWARD_SLASH) ->
  noSeparator s.
Proof.
  unfold noSeparator. induction s as [|x s IH]; intros H; [reflexivity |].
  simpl. rewrite IH; [| intros k; apply (H (S k))].
  rewrite orb_false_r. unfold Path.isPosixPathSeparator.
  destruct (Ascii.eqb_spec x Path.CHAR_FORWARD_SLASH) as [->|]; [| reflexivity].
  now specialize (H 0%nat).
Qed.

Lemma get_noSeparator (s : string) (k : nat) :
  noSeparator s -> String.get k s <> Some Path.CHAR_FORWARD_SLASH.
Proof.
  unfold noSeparator. revert k. induction s as [|x s IH]; intros k H.
  - destruct k; discriminate.
  - simpl in H. apply orb_false_iff in H as [Hx Hs].
    destruct k; simpl.
    + intros [= ->]. discriminate.
    + now apply IH.
Qed.

End StringFacts.

(** ** [path.extname] *)

Section Extname.

Variable path : string.

Lemma extInv_init : extInv path (String.length path) Path.extInit.
Proof.
  unfold extInv, Path.extInit; simpl.
  split; [| split]; intros H; try congruence.
  split; [reflexivity |]. split; [reflexivity |]. intros k Hk. lia.
Qed.

Lemma extInv_slash (i : nat) (st : Path.ExtState) :
  extInv path (S i) st ->
  String.get i path = Some Path.CHAR_FORWARD_SLASH ->
  Path.matchedSlash st = true ->
  extInv path i st.
Proof.
  intros (H1 & H2 & H3) Hget Hm.
  assert (He : Path.endPos st = -1).
  { destruct (Z.eq_dec (Path.endPos st) (-1)) as [|Hne]; [assumption |].
    destruct (H2 Hne) as (_ & Hf & _). congruence. }
  destruct (H1 He) as (Hd & _ & Hall).
  split; [| split]; intros H; try congruence.
  split; [assumption |]. split; [assumption |].
  intros k Hk. destruct (Nat.eq_dec k i) as [->|]; [assumption |].
  apply Hall. lia.
Qed.

Lemma extInv_body (i : nat) (code : ascii) (st : Path.ExtState) :
  extInv path (S i) st ->
  String.get i path = Some code ->
  code <> Path.CHAR_FORWARD_SLASH ->
  extInv path i (Path.extBody (Z.of_nat i) code st).
Proof.
  intros (H1 & H2 & H3) Hget Hcode.
  assert (Hlt : (i < String.length path)%nat) by (eapply get_Some_lt; eauto).
  assert (Hi : String.get i path <> Some Path.CHAR_FORWARD_SLASH)
    by (rewrite Hget; congruence).
  unfold Path.extBody.
  destruct (Z.eqb_spec (Path.endPos st) (-1)) as [He|He].
  - (* the first character that is not a separator *)
    destruct (H1 He) as (Hd & Hm & Hall).
    destruct (Ascii.eqb_spec code Path.CHAR_DOT) as [->|Hdot]; simpl;
      rewrite Hd; simpl.
    + split; [| split]; simpl; intros H; try lia.
      * repeat split; try lia.
        -- intros k Hk. assert (k = i) by lia. now subst.
        -- intros k Hk. apply Hall. lia.
      * split; [lia |]. split; [lia |]. now rewrite Nat2Z.id.
    + split; [| split]; simpl; intros H; try lia; try congruence.
      repeat split; try lia.
      * intros k Hk. assert (k = i) by lia. now subst.
      * intros k Hk. apply Hall. lia.
  - (* inside the last component *)
    destruct (H2 He) as (Hb & Hm & Hno & Hsl).
    assert (Hno' : forall k, Z.of_nat i <= Z.of_nat k < Path.endPos st ->
              String.get k path <> Some Path.CHAR_FORWARD_SLASH).
    { intros k Hk. destruct (Nat.eq_dec k i) as [->|]; [assumption |].
      apply Hno. lia. }
    destruct (Ascii.eqb_spec code Path.CHAR_DOT) as [->|Hdot].
    + destruct (Z.eqb_spec (Path.startDot st) (-1)) as [Hd|Hd].
      * split; [| split]; simpl; intros H; try congruence.
        -- repeat split; try lia; assumption.
        -- split; [assumption |]. split; [lia |]. now rewrite Nat2Z.id.
      * destruct (H3 Hd) as (_ & Hr & Hg).
        destruct (negb (Path.preDotState st =? 1));
          (split; [| split]; simpl; intros H; try congruence;
           [ repeat split; try lia; assumption
           | split; [assumption |]; split; [lia | assumption] ]).
    + destruct (Z.eqb_spec (Path.startDot st) (-1)) as [Hd|Hd]; simpl.
      * split; [| split]; intros H; try congruence.
        repeat split; try lia; assumption.
      * destruct (H3 Hd) as (_ & Hr & Hg).
        split; [| split]; simpl; intros H; try congruence.
        -- repeat split; try lia; assumption.
        -- split; [assumption |]. split; [lia | assumption].
Qed.

Lemma extInv_done (n : nat) (st : Path.ExtState) :
  extInv path n st -> extDone path st.
Proof.
  intros (H1 & H2 & H3) Hd He.
  destruct (H2 He) as (Hb & _ & Hno & Hsl).
  destruct (H3 Hd) as (_ & Hr & Hg).
  repeat split; try lia; try assumption.
  intros k Hk. apply Hno. lia.
Qed.

Lemma extLoop_done (n : nat) (st : Path.ExtState) :
  extInv path n st -> extDone path (Path.extLoop path n st).
Proof.
  revert st. induction n as [|i IH]; intros st Hinv; simpl.
  - eapply extInv_done; eassumption.
  - destruct (String.get i path) as [code|] eqn:Hget;
      [| eapply extInv_done; eassumption].
    unfold Path.isPosixPathSeparator.
    destruct (Ascii.eqb_spec code Path.CHAR_FORWARD_SLASH) as [->|Hcode].
    + destruct (Path.matchedSlash st) eqn:Hm; simpl.
      * apply IH. now apply extInv_slash.
      * pose proof (extInv_done _ _ Hinv) as Hdone.
        unfold extDone in *; simpl. exact Hdone.
    + apply IH. now apply extInv_body.
Qed.

(** The extension is empty, or it is the slice of [path] from a dot up
    to the end of the last component, with no separator in it. *)
Lemma extname_cases :
  Path.extname path = "" \/
  exists a b : nat,
    (a < b <= String.length path)%nat /\
    Path.extname path = String.substring a (b - a) path /\
    String.get a path = Some Path.CHAR_DOT /\
    (forall k, (a <= k < b)%nat ->
               String.get k path <> Some Path.CHAR_FORWARD_SLASH) /\
    (forall k, (b <= k < String.length path)%nat ->
               String.get k path = Some Path.CHAR_FORWARD_SLASH).
Proof.
  unfold Path.extname.
  pose proof (extLoop_done _ _ extInv_init) as Hdone.
  set (st := Path.extLoop path (String.length path) Path.extInit) in *.
  destruct (Z.eqb_spec (Path.startDot st) (-1)) as [|Hd]; [now left |].
  destruct (Z.eqb_spec (Path.endPos st) (-1)) as [|He]; [now left |].
  simpl.
  match goal with |- (if ?c then _ else _) = _ \/ _ => destruct c end;
    [now left |].
  right. destruct (Hdone Hd He) as (Hr & Hl & Hg & Hno & Hsl).
  exists (Z.to_nat (Path.startDot st)), (Z.to_nat (Path.endPos st)).
  split; [lia |]. split.
  { unfold Js.slice. f_equal. lia. }
  split; [assumption |]. split.
  - intros k Hk. apply Hno. lia.
  - intros k Hk. apply Hsl. lia.
Qed.

Lemma extname_noSeparator : noSeparator (Path.extname path).
Proof.
  destruct extname_cases as [->|(a & b & Hab & -> & _ & Hno & _)];
    [reflexivity |].
  apply noSeparator_get. intros k.
  destruct (Nat.lt_ge_cases k (b - a)) as [Hk|Hk].
  - rewrite get_substring by assumption. apply Hno. lia.
  - rewrite String.substring_correct2 by assumption. discriminate.
Qed.

Lemma extname_occursIn : occursIn (Path.extname path) path.
Proof.
  destruct extname_cases as [->|(a & b & Hab & -> & _)].
  - exists "", path. reflexivity.
  - eexists _, _. replace b with (a + (b - a))%nat at 2 by lia.
    apply substring_split. lia.
Qed.

Lemma extname_starts_with_dot :
  Path.extname path = "" \/
  exists rest, Path.extname path = String Path.CHAR_DOT rest.
Proof.
  destruct extname_cases as [->|(a & b & Hab & Heq & Hg & _)];
    [now left | right].
  assert (H0 : String.get 0 (Path.extname path) = Some Path.CHAR_DOT).
  { rewrite Heq, get_substring by lia. now rewrite Nat.add_0_r. }
  destruct (Path.extname path) as [|c rest]; [discriminate |].
  simpl in H0. injection H0 as ->. now exists rest.
Qed.

(** On a name without separators the extension is the end of the name. *)
Lemma extname_suffix :
  noSeparator path -> exists stem, path = stem +:+ Path.extname path.
Proof.
  intros Hns.
  destruct extname_cases as [->|(a & b & Hab & -> & _ & _ & Hsl)].
  - exists path. now rewrite append_nil_r.
  - assert (b = String.length path) as ->.
    { destruct (Nat.eq_dec b (String.length path)); [assumption |].
      exfalso. apply (get_noSeparator path b Hns). apply Hsl. lia. }
    exists (String.substring 0 a path).
    rewrite (substring_split path a (String.length path - a)) at 1 by lia.
    f_equal. rewrite <- (append_nil_r (String.substring a _ path)) at 2.
    f_equal.
    assert (Hz : String.length (String.substring
              (a + (String.length path - a))
              (String.length path - (a + (String.length path - a))) path)
              = 0%nat).
    { rewrite substring_length; lia. }
    destruct (String.substring _ _ path) in Hz |- *;
      [reflexivity | discriminate].
Qed.

End Extname.

(** ** Hexadecimal tokens *)

Section Hex.

Lemma byteToHex_shape (b : Byte.byte) :
  exists hi lo,
    Buffer.byteToHex b = String hi (String lo "") /\
    Buffer.isHexDigit hi = true /\ Buffer.isHexDigit lo = true /\
    Path.isPosixPathSeparator hi = false /\
    Path.isPosixPathSeparator lo = false /\
    hi <> Path.CHAR_DOT.
Proof.
  destruct b; eexists _, _; (split; [reflexivity |]);
    repeat split; discriminate.
Qed.

Lemma fromHex_byteToHex (b : Byte.byte) (rest : string) :
  Buffer.fromHex (Buffer.byteToHex b +:+ rest)
  = option_map (cons b) (Buffer.fromHex rest).
Proof.
  destruct b;
    (change (Buffer.byteToHex ?x +:+ rest)
       with (String (Buffer.hexDigit (N.div (Byte.to_N x) 16))
               (String (Buffer.hexDigit (N.modulo (Byte.to_N x) 16)) rest));
     cbn [Buffer.fromHex];
     destruct (Buffer.fromHex rest); reflexivity).
Qed.

(** Reading a token back gives the bytes it was made of: the rendering
    loses none of their bits. *)
Lemma fromHex_toHex (buf : list Byte.byte) :
  Buffer.fromHex (Buffer.toHex buf) = Some buf.
Proof.
  induction buf as [|b buf IH]; [reflexivity |].
  cbn [Buffer.toHex]. now rewrite fromHex_byteToHex, IH.
Qed.

Lemma toHex_inj (b1 b2 : list Byte.byte) :
  Buffer.toHex b1 = Buffer.toHex b2 -> b1 = b2.
Proof.
  intros H. apply (f_equal Buffer.fromHex) in H.
  rewrite !fromHex_toHex in H. congruence.
Qed.

Lemma toHex_length (buf : list Byte.byte) :
  String.length (Buffer.toHex buf) = (2 * List.length buf)%nat.
Proof.
  induction buf as [|b buf IH]; [reflexivity |].
  cbn [Buffer.toHex]. destruct (byteToHex_shape b) as (hi & lo & -> & _).
  simpl. rewrite IH. lia.
Qed.

Lemma toHex_allHex (buf : list Byte.byte) : allHex (Buffer.toHex buf) = true.
Proof.
  induction buf as [|b buf IH]; [reflexivity |].
  cbn [Buffer.toHex].
  destruct (byteToHex_shape b) as (hi & lo & -> & Hh & Hl & _).
  simpl. now rewrite Hh, Hl, IH.
Qed.

Lemma toHex_noSeparator (buf : list Byte.byte) :
  noSeparator (Buffer.toHex buf).
Proof.
  unfold noSeparator. induction buf as [|b buf IH]; [reflexivity |].
  cbn [Buffer.toHex].
  destruct (byteToHex_shape b) as (hi & lo & -> & _ & _ & Hh & Hl & _).
  simpl. now rewrite Hh, Hl, IH.
Qed.

(** A token of at least one byte starts with a hexadecimal digit, hence
    with a character that is neither a dot nor a separator. *)
Lemma toHex_head (b : Byte.byte) (buf : list Byte.byte) :
  exists c rest,
    Buffer.toHex (b :: buf) = String c rest /\
    c <> Path.CHAR_DOT /\ Path.isPosixPathSeparator c = false.
Proof.
  cbn [Buffer.toHex].
  destruct (byteToHex_shape b) as (hi & lo & -> & _ & _ & Hh & _ & Hd).
  simpl. eauto.
Qed.

Lemma randomBytes_length (n : nat) (env : Env) (w : World) :
  exists bytes, fst (Crypto.randomBytes n env w) = Ok bytes /\
                bytes = map (entropy w) (seq 0 n) /\
                List.length bytes = n.
Proof.
  eexists. split; [reflexivity |]. split; [reflexivity |].
  now rewrite length_map, length_seq.
Qed.

End Hex.

(** ** [path.join] *)

Section PathFacts.

Lemma segments_nonempty (p : string) : Path.segments p <> [].
Proof.
  destruct p as [|c p]; simpl; [discriminate |].
  destruct (Path.isPosixPathSeparator c); [discriminate |].
  destruct (Path.segments p); discriminate.
Qed.

Lemma segments_noSeparator (p : string) :
  Forall noSeparator (Path.segments p).
Proof.
  induction p as [|c p IH]; simpl.
  - repeat constructor.
  - destruct (Path.isPosixPathSeparator c) eqn:Hc.
    + constructor; [reflexivity | assumption].
    + destruct (Path.segments p) as [|seg segs].
      * repeat constructor. unfold noSeparator; simpl. now rewrite Hc.
      * inversion IH; subst. constructor; [| assumption].
        unfold noSeparator in *; simpl. now rewrite Hc.
Qed.

Lemma segments_append_slash (a b : string) :
  Path.segments (a +:+ "/" +:+ b)
  = (Path.segments a ++ Path.segments b)%list.
Proof.
  induction a as [|c a IH]; [reflexivity |].
  simpl in IH |- *. rewrite IH.
  destruct (Path.isPosixPathSeparator c); [reflexivity |].
  pose proof (segments_nonempty a).
  destruct (Path.segments a); [congruence | reflexivity].
Qed.

Lemma segments_single (s : string) :
  noSeparator s -> Path.segments s = [s].
Proof.
  unfold noSeparator. induction s as [|c s IH]; [reflexivity |].
  simpl. intros H. apply orb_false_iff in H as [Hc Hs].
  now rewrite Hc, (IH Hs).
Qed.

Lemma segments_concat (l : list string) :
  l <> [] -> Forall noSeparator l ->
  Path.segments (String.concat "/" l) = l.
Proof.
  induction l as [|x l IH]; [congruence |]. intros _ Hall.
  inversion Hall as [|? ? Hx Hl]; subst.
  destruct l as [|y l].
  - simpl. now apply segments_single.
  - change (String.concat "/" (x :: y :: l))
      with (x +:+ "/" +:+ String.concat "/" (y :: l)).
    rewrite segments_append_slash, segments_single by assumption.
    rewrite IH by (assumption || discriminate). reflexivity.
Qed.

Lemma concat_app (l1 l2 : list string) :
  l1 <> [] -> l2 <> [] ->
  String.concat "/" (l1 ++ l2)
  = String.concat "/" l1 +:+ "/" +:+ String.concat "/" l2.
Proof.
  induction l1 as [|x l1 IH]; [congruence |]. intros _ H2.
  destruct l1 as [|y l1].
  - destruct l2; [congruence | reflexivity].
  - change (String.concat "/" ((x :: y :: l1) ++ l2))
      with (x +:+ "/" +:+ String.concat "/" ((y :: l1) ++ l2)).
    rewrite IH by (assumption || discriminate).
    change (String.concat "/" (x :: y :: l1))
      with (x +:+ "/" +:+ String.concat "/" (y :: l1)).
    now rewrite !append_assoc.
Qed.

Lemma concat_head (x : string) (l : list string) :
  exists rest, String.concat "/" (x :: l) = x +:+ rest.
Proof.
  destruct l as [|y l].
  - exists "". simpl. now rewrite append_nil_r.
  - eexists. reflexivity.
Qed.

Lemma startsWithSlash_append (a b : string) :
  a <> "" -> Path.startsWithSlash (a +:+ b) = Path.startsWithSlash a.
Proof. destruct a; [congruence | reflexivity]. Qed.

Lemma endsWithSlash_append (a b : string) :
  b <> "" -> Path.endsWithSlash (a +:+ b) = Path.endsWithSlash b.
Proof.
  intros Hb. induction a as [|c a IH]; [reflexivity |].
  simpl. destruct (a +:+ b) eqn:E; [| exact IH].
  apply append_eq_nil in E as [_ ?]. congruence.
Qed.

Lemma endsWithSlash_noSeparator (s : string) :
  noSeparator s -> Path.endsWithSlash s = false.
Proof.
  unfold noSeparator. induction s as [|c s IH]; [reflexivity |].
  simpl. intros H. apply orb_false_iff in H as [Hc Hs].
  destruct s; [assumption | now apply IH].
Qed.

Lemma eqb_append_nonempty (a b : string) :
  a <> "" -> String.eqb (a +:+ b) "" = false.
Proof. destruct a; [congruence | reflexivity]. Qed.

(** *** The stack of [normalizeString] *)

Lemma normalStack_names (allow : bool) (st : list string) :
  normalStack allow st ->
  Forall (fun seg => seg <> "" /\ noSeparator seg) st.
Proof.
  induction st as [|seg st IH]; simpl; [constructor |].
  intros (H1 & _ & H3 & _ & H5). constructor; auto.
Qed.

Lemma normalizeStep_normal (allow : bool) (st : list string) (seg : string) :
  noSeparator seg -> normalStack allow st ->
  normalStack allow (Path.normalizeStep allow st seg).
Proof.
  intros Hseg Hst. unfold Path.normalizeStep.
  destruct (String.eqb_spec seg "") as [|Hne]; [assumption |].
  destruct (String.eqb_spec seg ".") as [|Hnd]; [assumption |]. simpl.
  destruct (String.eqb_spec seg "..") as [->|Hndd].
  - destruct st as [|last before].
    + destruct allow; simpl; [| exact I].
      split; [discriminate |]. split; [discriminate |].
      split; [reflexivity |]. split; [| exact I].
      intros _. split; [reflexivity | constructor].
    + destruct (String.eqb_spec last "..") as [->|Hl].
      * destruct allow; [| assumption]. simpl in Hst |- *.
        destruct Hst as (_ & _ & _ & Hup & Hrest).
        destruct (Hup eq_refl) as [_ Hall].
        split; [discriminate |]. split; [discriminate |].
        split; [reflexivity |]. split.
        -- intros _. split; [reflexivity |]. now constructor.
        -- split; [discriminate |]. split; [discriminate |].
           split; [reflexivity |]. split; [| assumption].
           intros _. split; [reflexivity | assumption].
      * simpl in Hst. tauto.
  - simpl. split; [assumption |]. split; [assumption |].
    split; [assumption |]. split; [congruence | assumption].
Qed.

Lemma fold_normal (allow : bool) (segs st : list string) :
  Forall noSeparator segs -> normalStack allow st ->
  normalStack allow (fold_left (Path.normalizeStep allow) segs st).
Proof.
  revert st. induction segs as [|seg segs IH]; intros st Hall Hst; simpl;
    [assumption |].
  inversion Hall; subst. apply IH; [assumption |].
  now apply normalizeStep_normal.
Qed.

(** Normalizing a normalized path changes nothing. *)
Lemma fold_rev_normal (allow : bool) (st : list string) :
  normalStack allow st ->
  fold_left (Path.normalizeStep allow) (rev st) [] = st.
Proof.
  induction st as [|seg st IH]; [reflexivity |].
  simpl. intros (Hne & Hnd & _ & Hup & Hrest).
  rewrite fold_left_app, (IH Hrest). simpl.
  unfold Path.normalizeStep.
  destruct (String.eqb_spec seg "") as [|_]; [congruence |].
  destruct (String.eqb_spec seg ".") as [|_]; [congruence |]. simpl.
  destruct (String.eqb_spec seg "..") as [->|_]; [| reflexivity].
  destruct (Hup eq_refl) as [-> Hall].
  destruct st as [|last before]; [reflexivity |].
  inversion Hall; subst. reflexivity.
Qed.

(** Without [..] segments the stack only grows, by the segments that are
    names. *)
Lemma fold_no_parent (allow : bool) (segs st : list string) :
  ~ In ".." segs ->
  fold_left (Path.normalizeStep allow) segs st
  = (rev (List.filter regularSegment segs) ++ st)%list.
Proof.
  revert st. induction segs as [|seg segs IH]; intros st Hno;
    [reflexivity |].
  simpl. rewrite IH by (intros H; apply Hno; now right).
  unfold Path.normalizeStep, regularSegment.
  destruct (String.eqb_spec seg "") as [|_]; [reflexivity |].
  destruct (String.eqb_spec seg ".") as [|_]; [reflexivity |].
  destruct (String.eqb_spec seg "..") as [->|_].
  - exfalso. apply Hno. now left.
  - simpl. now rewrite <- app_assoc.
Qed.

End PathFacts.

Section JoinFacts.

Lemma concat_nonempty (l : list string) :
  l <> [] -> Forall (fun seg => seg <> "" /\ noSeparator seg) l ->
  String.eqb (String.concat "/" l) "" = false /\
  Path.startsWithSlash (String.concat "/" l) = false.
Proof.
  destruct l as [|x l]; [congruence |]. intros _ Hall.
  inversion Hall as [|? ? [Hx Hs] _]; subst.
  destruct (concat_head x l) as [rest ->].
  split; [now apply eqb_append_nonempty |].
  rewrite startsWithSlash_append by assumption.
  destruct x as [|c x]; [congruence |].
  unfold noSeparator in Hs. simpl in Hs |- *.
  now apply orb_false_iff in Hs as [-> _].
Qed.

Lemma normalPath_names (absolute : bool) (segs : list string) (p : string) :
  normalPath absolute segs p ->
  Forall (fun seg => seg <> "" /\ noSeparator seg) segs.
Proof.
  intros (_ & Hst & _). apply normalStack_names in Hst.
  rewrite <- (rev_involutive segs). now apply List.Forall_rev.
Qed.

Lemma normalPath_nonempty (absolute : bool) (segs : list string) (p : string) :
  normalPath absolute segs p ->
  p <> "" /\ Path.startsWithSlash p = absolute.
Proof.
  intros Hp. pose proof (normalPath_names _ _ _ Hp) as Hall.
  destruct Hp as (Hne & _ & ->).
  destruct (concat_nonempty segs Hne Hall) as [Hc Hs].
  destruct absolute; simpl; [split; [discriminate | reflexivity] |].
  split; [| assumption]. intros E. rewrite E in Hc. discriminate.
Qed.

Lemma normalPath_segments (absolute : bool) (segs : list string) (p : string) :
  normalPath absolute segs p ->
  fold_left (Path.normalizeStep (negb absolute)) (Path.segments p) []
  = rev segs.
Proof.
  intros Hp. pose proof (normalPath_names _ _ _ Hp) as Hall.
  destruct Hp as (Hne & Hst & ->).
  assert (Hseg : Path.segments (String.concat "/" segs) = segs).
  { apply segments_concat; [assumption |].
    eapply List.Forall_impl; [| exact Hall]. simpl. tauto. }
  destruct absolute.
  - change (Path.segments ("/" +:+ String.concat "/" segs))
      with ("" :: Path.segments (String.concat "/" segs)).
    rewrite Hseg.
    change (fold_left (Path.normalizeStep (negb true)) ("" :: segs) [])
      with (fold_left (Path.normalizeStep (negb true)) segs []).
    rewrite <- (rev_involutive segs) at 1.
    now apply fold_rev_normal.
  - change ("" +:+ String.concat "/" segs) with (String.concat "/" segs).
    rewrite Hseg. rewrite <- (rev_involutive segs) at 1.
    now apply fold_rev_normal.
Qed.

(** The content directory is a normalized path whatever the directory of
    the application is. *)
Lemma uploadsDir_normal (env : Env) :
  exists absolute segs, normalPath absolute segs (App.uploadsDir env).
Proof.
  unfold App.uploadsDir, Path.join.
  destruct (String.eqb_spec (dirname env) "") as [E|E].
  - exists false, ["uploads"]. split; [discriminate |].
    split; [| reflexivity]. simpl.
    split; [discriminate |]. split; [discriminate |].
    split; [reflexivity |]. split; [discriminate | exact I].
  - change (String.eqb "uploads" "") with false. cbv iota.
    unfold Path.normalize.
    rewrite eqb_append_nonempty by assumption.
    rewrite startsWithSlash_append by assumption.
    rewrite endsWithSlash_append by discriminate.
    change (Path.endsWithSlash ("/" +:+ "uploads")) with false.
    rewrite segments_append_slash.
    set (absolute := Path.startsWithSlash (dirname env)).
    unfold Path.normalizeString. rewrite fold_left_app.
    set (st := fold_left (Path.normalizeStep (negb absolute))
                 (Path.segments (dirname env)) []).
    change (fold_left (Path.normalizeStep (negb absolute))
              (Path.segments "uploads") st) with ("uploads" :: st).
    assert (Hst : normalStack (negb absolute) ("uploads" :: st)).
    { simpl. split; [discriminate |]. split; [discriminate |].
      split; [reflexivity |]. split; [discriminate |].
      apply fold_normal; [apply segments_noSeparator | exact I]. }
    exists absolute, (rev ("uploads" :: st)).
    assert (Hne : rev ("uploads" :: st) <> []).
    { simpl. intros H. apply app_eq_nil in H as [_ H]. discriminate. }
    assert (Hp : normalPath absolute (rev ("uploads" :: st))
              ((if absolute then "/" else "")
                 +:+ String.concat "/" (rev ("uploads" :: st)))).
    { split; [assumption |]. split; [| reflexivity].
      now rewrite rev_involutive. }
    pose proof (normalPath_names _ _ _ Hp) as Hall.
    destruct (concat_nonempty _ Hne Hall) as [-> _].
    destruct absolute; exact Hp.
Qed.

(** Joining a name without [..] segments to a normalized directory
    appends to the directory. *)
Lemma join_normal_dir (absolute : bool) (segs : list string)
    (dir name : string) :
  normalPath absolute segs dir ->
  name <> "" -> ~ In ".." (Path.segments name) ->
  Path.join dir name = dir +:+ joinedTail name.
Proof.
  intros Hp Hname Hno.
  pose proof (normalPath_names _ _ _ Hp) as Hall.
  destruct (normalPath_nonempty _ _ _ Hp) as [Hdir Habs].
  pose proof (normalPath_segments _ _ _ Hp) as Hfold.
  destruct Hp as (Hne & Hst & Heq).
  unfold Path.join.
  destruct (String.eqb_spec dir "") as [|_]; [congruence |].
  destruct (String.eqb_spec name "") as [|_]; [congruence |].
  unfold Path.normalize.
  rewrite eqb_append_nonempty by assumption.
  rewrite startsWithSlash_append by assumption. rewrite Habs.
  rewrite endsWithSlash_append by discriminate.
  rewrite (endsWithSlash_append "/" name) by assumption.
  rewrite segments_append_slash.
  unfold Path.normalizeString. rewrite fold_left_app, Hfold.
  rewrite fold_no_parent by assumption.
  rewrite rev_app_distr, !rev_involutive.
  unfold joinedTail.
  set (kept := List.filter regularSegment (Path.segments name)).
  assert (Hcat : String.concat "/" (segs ++ kept)
                 = String.concat "/" segs
                   +:+ match kept with
                       | [] => ""
                       | _ :: _ => "/" +:+ String.concat "/" kept
                       end).
  { destruct kept as [|k kept'].
    - now rewrite app_nil_r, append_nil_r.
    - now rewrite concat_app by (assumption || discriminate). }
  assert (Hres : String.eqb (String.concat "/" (segs ++ kept)) "" = false).
  { rewrite Hcat. apply eqb_append_nonempty.
    destruct (concat_nonempty _ Hne Hall) as [Hc _].
    intros E. rewrite E in Hc. discriminate. }
  rewrite Hres, Hcat, Heq.
  destruct absolute, (Path.endsWithSlash name);
    simpl; rewrite ?append_assoc, ?append_nil_r; reflexivity.
Qed.

Lemma filter_regular_no_parent (segs : list string) :
  ~ In ".." (List.filter regularSegment segs).
Proof.
  intros H. apply filter_In in H as [_ H]. discriminate.
Qed.

Lemma filter_regular_noSeparator (name : string) :
  Forall noSeparator (List.filter regularSegment (Path.segments name)).
Proof.
  apply List.Forall_forall. intros seg H. apply filter_In in H as [H _].
  pose proof (segments_noSeparator name) as Hall.
  rewrite List.Forall_forall in Hall. now apply Hall.
Qed.

Lemma joinedTail_within (dir name : string) :
  withinDir dir (dir +:+ joinedTail name).
Proof.
  unfold joinedTail, withinDir.
  pose proof (filter_regular_no_parent (Path.segments name)) as Hno.
  pose proof (filter_regular_noSeparator name) as Hsep.
  destruct (List.filter regularSegment (Path.segments name))
    as [|k kept] eqn:Hkept.
  - destruct (Path.endsWithSlash name); simpl.
    + right. exists "". split; [reflexivity |]. intros [H|[]]. discriminate.
    + left. apply append_nil_r.
  - right. destruct (Path.endsWithSlash name).
    + exists (String.concat "/" (k :: kept) +:+ "/" +:+ "").
      split; [now rewrite !append_assoc |].
      rewrite segments_append_slash, segments_concat
        by (assumption || discriminate).
      intros H. apply in_app_or in H as [H|[H|[]]];
        [now apply Hno | discriminate].
    + exists (String.concat "/" (k :: kept)).
      split; [now rewrite !append_assoc, append_nil_r |].
      rewrite segments_concat by (assumption || discriminate).
      exact Hno.
Qed.

(** A name that is neither empty nor made of dots only, and has no
    separator, is appended to the directory as it stands. *)
Lemma joinedTail_name (name : string) :
  noSeparator name -> regularSegment name = true ->
  joinedTail name = "/" +:+ name.
Proof.
  intros Hns Hreg. unfold joinedTail.
  rewrite segments_single by assumption. simpl. rewrite Hreg.
  rewrite endsWithSlash_noSeparator by assumption.
  simpl. now rewrite append_nil_r.
Qed.

End JoinFacts.

(** ** The two routes, case by case *)

Section Routes.

#[local] Opaque Buffer.toHex Path.join Path.extname.

Lemma logerror_files (err : Error) (env : Env) (w : World) :
  files (Express.logerror err env w) = files w.
Proof. unfold Express.logerror. now destruct (String.eqb _ "test"). Qed.

Lemma logerror_uploads (err : Error) (env : Env) (w : World) :
  uploads (Express.logerror err env w) = uploads w.
Proof. unfold Express.logerror. now destruct (String.eqb _ "test"). Qed.

Lemma logerror_next_id (err : Error) (env : Env) (w : World) :
  next_id (Express.logerror err env w) = next_id w.
Proof. unfold Express.logerror. now destruct (String.eqb _ "test"). Qed.

Lemma logerror_log (err : Error) (env : Env) (w : World) :
  log (Express.logerror err env w) = log w.
Proof. unfold Express.logerror. now destruct (String.eqb _ "test"). Qed.

Lemma logerror_entropy (err : Error) (env : Env) (w : World) :
  entropy (Express.logerror err env w) = entropy w.
Proof. unfold Express.logerror. now destruct (String.eqb _ "test"). Qed.

Lemma rejected_files (err : Error) (env : Env) (w : World) :
  files (snd (Express.rejected err env w)) = files w.
Proof.
  unfold Express.rejected, Express.next.
  destruct (express env); [reflexivity | apply logerror_files].
Qed.

Lemma rejected_uploads (err : Error) (env : Env) (w : World) :
  uploads (snd (Express.rejected err env w)) = uploads w.
Proof.
  unfold Express.rejected, Express.next.
  destruct (express env); [reflexivity | apply logerror_uploads].
Qed.

Lemma rejected_next_id (err : Error) (env : Env) (w : World) :
  next_id (snd (Express.rejected err env w)) = next_id w.
Proof.
  unfold Express.rejected, Express.next.
  destruct (express env); [reflexivity | apply logerror_next_id].
Qed.

Lemma rejected_log (err : Error) (env : Env) (w : World) :
  log (snd (Express.rejected err env w)) = log w.
Proof.
  unfold Express.rejected, Express.next.
  destruct (express env); [reflexivity | apply logerror_log].
Qed.

(** A rejected promise is never answered with a status other than that of
    the default error handler. *)
Lemma rejected_status (err : Error) (env : Env) (w : World) :
  answerStatus (fst (Express.rejected err env w))
  = match express env with
    | Express5 => Some (Express.errorStatus err)
    | Express4 => None
    end.
Proof. unfold Express.rejected. now destruct (express env). Qed.

Lemma postMedia_outcome (env : Env) (w : World) (req : UploadRequest) :
  UploadOutcome env w req (fst (App.postMedia env w req))
                          (snd (App.postMedia env w req)).
Proof.
  unfold App.postMedia, Express.route, App.upload, Multer.single.
  destruct (req_part req) as [file|] eqn:Hpart;
    [| apply UploadNoFile; assumption].
  destruct (String.eqb_spec (originalname file) "") as [Horig|Horig];
    [apply UploadNoFileName with (file := file); assumption |].
  destruct (String.eqb_spec (fieldname file) "file") as [Hfield|Hfield];
    [| apply UploadUnexpectedField with (file := file); assumption].
  unfold App.fileFilter.
  destruct (Js.includes App.allowedTypes (mimetype file)) eqn:Hmime;
    [| apply UploadFiltered with (file := file); assumption].
  unfold Multer.handleFile, App.destination, App.filename,
    Crypto.randomBytes, Fs.writeFile, App.postMediaHandler,
    Pool.insertUpload, App.handleError, console_error, tryCatch, bind,
    ask, emit, ret, throw, Express.next.
  simpl.
  match goal with
  | |- context [Fs.hasNullByte ?p] =>
      change p with (storagePath env w file)
  end.
  destruct (Fs.hasNullByte (storagePath env w file)) eqn:Hnul; simpl.
  { apply UploadThrown with (file := file); auto. }
  destruct (write_error env) as [wmsg|] eqn:Hwrite; simpl.
  { apply UploadWriteFailed with (file := file); auto. }
  destruct (query_error env) as [qmsg|] eqn:Hquery; simpl.
  { apply UploadInsertFailed with (file := file); auto.
    simpl. now rewrite <- List.app_assoc. }
  apply UploadStored with (file := file); auto.
  simpl. now rewrite <- List.app_assoc.
Qed.

(** The upload handler always answers: nothing it throws leaves it. *)
Lemma postMediaHandler_answers (req : UploadRequest)
    (file : option MulterFile) (env : Env) (w : World) :
  exists r w', App.postMediaHandler req file env w = (Ok r, w').
Proof.
  unfold App.postMediaHandler, Pool.insertUpload, App.handleError,
    console_error, tryCatch, bind, ask, emit, ret, throw.
  destruct file as [f|]; [| eauto].
  simpl. destruct (query_error env); simpl; eauto.
Qed.

(** The delete handler answers unless [fs.unlink] refuses the path. *)
Lemma deleteMediaHandler_answers (req : DeleteRequest)
    (env : Env) (w : World) :
  (forall name, param_filename req = Some name ->
                Fs.hasNullByte (deletePath env name) = false) ->
  exists r w', App.deleteMediaHandler req env w = (Ok r, w').
Proof.
  intros Hnul.
  unfold App.deleteMediaHandler, Fs.unlink, Pool.deleteUpload,
    App.handleError, console_error, tryCatch, bind, ask, emit, ret, throw.
  destruct (Js.falsy (param_filename req)); [eauto |].
  destruct (param_filename req) as [name|] eqn:Hname; [| eauto].
  simpl. fold (deletePath env name). rewrite (Hnul name eq_refl).
  destruct (unlink_error env); simpl; [eauto |].
  destruct (files w !! deletePath env name); simpl; [| eauto].
  destruct (query_error env); simpl; eauto.
Qed.

Lemma deleteMedia_outcome (env : Env) (w : World) (req : DeleteRequest) :
  DeleteOutcome env w req (fst (App.deleteMedia env w req))
                          (snd (App.deleteMedia env w req)).
Proof.
  unfold App.deleteMedia, Express.route, App.deleteMediaHandler.
  cbn [ret].
  destruct (Js.falsy (param_filename req)) eqn:Hfalsy;
    [now apply DeleteNoName |].
  destruct (param_filename req) as [name|] eqn:Hname; [| discriminate].
  assert (Hne : name <> "").
  { intros ->. discriminate. }
  unfold Fs.unlink, Pool.deleteUpload, App.handleError, console_error,
    tryCatch, bind, ask, emit, ret, throw.
  simpl. fold (deletePath env name).
  destruct (Fs.hasNullByte (deletePath env name)) eqn:Hnul; simpl.
  { apply DeleteThrown with (name := name); auto. }
  destruct (unlink_error env) as [umsg|] eqn:Hunlink; simpl.
  { apply DeleteUnlinkFailed with (name := name); auto. }
  destruct (files w !! deletePath env name) as [data|] eqn:Hfile; simpl.
  2: { apply DeleteUnlinkFailed with (name := name); auto. }
  destruct (query_error env) as [qmsg|] eqn:Hquery; simpl.
  { apply DeleteQueryFailed with (name := name); auto; [congruence |].
    simpl. now rewrite <- List.app_assoc. }
  apply DeleteDone with (name := name); auto; [congruence |].
  simpl. now rewrite <- List.app_assoc.
Qed.

End Routes.

(** ** The name generator *)

Section NameGenerator.

Variables (env : Env) (w : World) (file : FilePart).

Lemma storageName_noSeparator : noSeparator (storageName w file).
Proof.
  unfold storageName. apply noSeparator_append.
  - apply toHex_noSeparator.
  - apply extname_noSeparator.
Qed.

Lemma storageName_regular : regularSegment (storageName w file) = true.
Proof.
  unfold storageName.
  change (map (entropy w) (seq 0 16))
    with (entropy w 0%nat :: map (entropy w) (seq 1 15)).
  destruct (toHex_head (entropy w 0%nat) (map (entropy w) (seq 1 15)))
    as (c & rest & -> & Hdot & _).
  unfold regularSegment. simpl.
  destruct (Ascii.eqb_spec c ".") as [E|_]; [| reflexivity].
  now elim Hdot.
Qed.

Lemma storageName_nonempty : storageName w file <> "".
Proof.
  pose proof storageName_regular as H. intros E. rewrite E in H.
  discriminate.
Qed.

(** The upload is written to an entry of the content directory itself. *)
Lemma storagePath_direct :
  storagePath env w file
  = App.uploadsDir env +:+ "/" +:+ storageName w file.
Proof.
  unfold storagePath.
  destruct (uploadsDir_normal env) as (absolute & segs & Hp).
  rewrite (join_normal_dir _ _ _ _ Hp).
  - now rewrite joinedTail_name
      by (apply storageName_noSeparator || apply storageName_regular).
  - apply storageName_nonempty.
  - rewrite segments_single by apply storageName_noSeparator.
    intros [E|[]]. pose proof storageName_regular as H.
    rewrite E in H. discriminate.
Qed.

Lemma storagePath_directlyIn :
  directlyIn (App.uploadsDir env) (storagePath env w file).
Proof.
  exists (storageName w file). split; [apply storageName_regular |].
  split; [apply storageName_noSeparator | apply storagePath_direct].
Qed.

End NameGenerator.

(** ** Upload *)

(** Case analysis on the run of a request. *)
Ltac world_facts :=
  rewrite ?logerror_files, ?logerror_uploads, ?logerror_next_id,
    ?logerror_log, ?rejected_files, ?rejected_uploads, ?rejected_next_id,
    ?rejected_log in *.

Ltac upload_cases env w req :=
  let H := fresh "Hrun" in
  pose proof (postMedia_outcome env w req) as H;
  destruct (App.postMedia env w req) as [? ?];
  cbn [fst snd] in *; inversion H; subst; clear H; world_facts.

Ltac delete_cases env w req :=
  let H := fresh "Hrun" in
  pose proof (deleteMedia_outcome env w req) as H;
  destruct (App.deleteMedia env w req) as [? ?];
  cbn [fst snd] in *; inversion H; subst; clear H; world_facts.

Section Upload.

Variables (env : Env) (w : World) (req : UploadRequest).

(** C1, as amended. An upload whose declared MIME type is not on the
    allow-list is rejected before any storage action and leaves the disk,
    the table, its counter and the log of storage actions as they were,
    with no file written and no row inserted. The error of the filter
    reaches the default error handler, which answers with status 500; a
    part without a file name is not taken for a file at all and does not
    reach the filter. *)
Theorem unlisted_type_rejected_before_storage (file : FilePart) :
  req_part req = Some file ->
  Js.includes App.allowedTypes (mimetype file) = false ->
  files (snd (App.postMedia env w req)) = files w /\
  uploads (snd (App.postMedia env w req)) = uploads w /\
  next_id (snd (App.postMedia env w req)) = next_id w /\
  log (snd (App.postMedia env w req)) = log w /\
  (originalname file <> "" ->
   answerStatus (fst (App.postMedia env w req)) = Some 500 /\
   exists e, answerBody (fst (App.postMedia env w req)) = Some (ErrorPage e)).
Proof.
  intros Hpart Hmime. upload_cases env w req; try congruence.
  - do 4 (split; [reflexivity |]). intros Hname. congruence.
  - do 4 (split; [reflexivity |]). intros _.
    split; [reflexivity | eexists; reflexivity].
  - do 4 (split; [reflexivity |]). intros _.
    split; [reflexivity | eexists; reflexivity].
Qed.

(** C7. An upload request without a file part is answered at once with
    status 400 and [No file uploaded]; the server state is left as it
    was: no file is created and no row is inserted. *)
Theorem upload_without_file_is_client_error :
  req_part req = None ->
  fst (App.postMedia env w req)
    = Sent {| res_status := 400;
              res_body := JsonError "No file uploaded" None |} /\
  (exists status,
      answerStatus (fst (App.postMedia env w req)) = Some status /\
      clientError status) /\
  snd (App.postMedia env w req) = w.
Proof.
  intros Hpart. upload_cases env w req; try congruence.
  split; [reflexivity |]. split; [| reflexivity].
  exists 400. split; [reflexivity |]. unfold clientError; lia.
Qed.

(** C8. A successful upload answers 200 with the message and a [file]
    object whose [name] is the generated storage name, whose [path] is
    the path the bytes were written to, and whose [url] is the protocol
    of the request, [://], its host, [/uploads/] and the storage name;
    for a request without a [Host] header the text [undefined] stands
    where the host would. *)
Theorem successful_upload_response :
  answerStatus (fst (App.postMedia env w req)) = Some 200 ->
  exists file,
    req_part req = Some file /\
    answerBody (fst (App.postMedia env w req)) =
      Some (JsonUploaded "File uploaded successfully"
              (storageName w file) (storagePath env w file)
              (req_protocol req +:+ "://" +:+ Js.template (req_host req)
                 +:+ "/uploads/" +:+ storageName w file)) /\
    (forall host,
        req_host req = Some host ->
        answerBody (fst (App.postMedia env w req)) =
          Some (JsonUploaded "File uploaded successfully"
                  (storageName w file) (storagePath env w file)
                  (req_protocol req +:+ "://" +:+ host
                     +:+ "/uploads/" +:+ storageName w file))) /\
    (req_host req = None ->
     answerBody (fst (App.postMedia env w req)) =
       Some (JsonUploaded "File uploaded successfully"
               (storageName w file) (storagePath env w file)
               (req_protocol req +:+ "://" +:+ "undefined"
                  +:+ "/uploads/" +:+ storageName w file))) /\
    fst (App.filename file env w) = Ok (storageName w file) /\
    storagePath env w file
      = Path.join (App.uploadsDir env) (storageName w file) /\
    files (snd (App.postMedia env w req)) !! storagePath env w file
      = Some (content file) /\
    In (FsWrite (storagePath env w file) true)
       (log (snd (App.postMedia env w req))).
Proof.
  intros Hstatus. upload_cases env w req; try discriminate Hstatus.
  exists file. split; [assumption |]. split; [reflexivity |].
  split; [intros host Hhost; cbn [answerBody res_body]; now rewrite Hhost |].
  split; [intros Hhost; cbn [answerBody res_body]; now rewrite Hhost |].
  split; [reflexivity |]. split; [reflexivity |]. split.
  - match goal with Hf : files _ = _ |- _ => rewrite Hf end.
    apply lookup_insert_eq.
  - match goal with Hl : log _ = _ |- _ => rewrite Hl end.
    apply in_or_app. right. now left.
Qed.

(** C3. In every upload the write of the file is over, with success or
    with failure, before the metadata insert begins: an insert in the
    log of the request comes after a successful write of the path it
    records and no write follows it; when the write fails no insert is
    attempted and the table is unchanged; and every row the table has
    afterwards was there before or records a path written with success
    during the request, at which a file now exists. *)
Theorem write_completes_before_insert :
  exists evs : list Event,
    log (snd (App.postMedia env w req)) = (log w ++ evs)%list /\
    (forall (i : nat) name path ok,
        evs !! i = Some (DbInsert name path ok) ->
        exists j : nat,
          (j < i)%nat /\ evs !! j = Some (FsWrite path true) /\
          forall (k : nat) ev,
            (i <= k)%nat -> evs !! k = Some ev -> isFsWrite ev = false) /\
    (forall path,
        In (FsWrite path false) evs ->
        (forall ev, In ev evs -> isDbInsert ev = false) /\
        uploads (snd (App.postMedia env w req)) = uploads w) /\
    (forall row,
        In row (uploads (snd (App.postMedia env w req))) ->
        In row (uploads w) \/
        (In (FsWrite (file_path row) true) evs /\
         files (snd (App.postMedia env w req)) !! file_path row <> None)).
Proof.
  upload_cases env w req.
  1-4: (exists []; split; [now rewrite app_nil_r |];
        split; [intros i ? ? ? Hi; now rewrite lookup_nil in Hi |];
        split; [intros ? [] | intros row Hrow; now left]).
  - (* the stream could not be made *)
    exists []. split; [rewrite app_nil_r; assumption |].
    split; [intros i ? ? ? Hi; now rewrite lookup_nil in Hi |].
    split; [intros ? [] | intros row Hrow; left; congruence].
  - (* the write failed *)
    eexists. split; [eassumption |]. split; [| split].
    + intros [|i] ? ? ? Hi; simpl in Hi; [discriminate |].
      now rewrite lookup_nil in Hi.
    + intros path _. split; [| assumption].
      intros ev [<-|[]]. reflexivity.
    + intros row Hrow. left. congruence.
  - (* the write succeeded, the insert failed *)
    eexists. split; [eassumption |]. split; [| split].
    + intros [|[|i]] ? ? ? Hi; simpl in Hi; try discriminate;
        try (now rewrite lookup_nil in Hi).
      injection Hi as <- <- <-. exists 0%nat.
      split; [lia |]. split; [reflexivity |].
      intros [|[|k]] ev Hk Hev; simpl in Hev; try lia; try discriminate;
        try (now rewrite lookup_nil in Hev).
      injection Hev as <-. reflexivity.
    + intros path [Hev|[Hev|[]]]; discriminate.
    + intros row Hrow. left. congruence.
  - (* the write and the insert succeeded *)
    eexists. split; [eassumption |]. split; [| split].
    + intros [|[|i]] ? ? ? Hi; simpl in Hi; try discriminate;
        try (now rewrite lookup_nil in Hi).
      injection Hi as <- <- <-. exists 0%nat.
      split; [lia |]. split; [reflexivity |].
      intros [|[|k]] ev Hk Hev; simpl in Hev; try lia; try discriminate;
        try (now rewrite lookup_nil in Hev).
      injection Hev as <-. reflexivity.
    + intros path [Hev|[Hev|[]]]; discriminate.
    + intros row Hrow.
      match goal with Hu : uploads _ = _ |- _ => rewrite Hu in Hrow end.
      apply in_app_or in Hrow as [Hrow|[<-|[]]]; [now left | right].
      simpl. split; [now left |].
      match goal with Hf : files _ = _ |- _ => rewrite Hf end.
      now rewrite lookup_insert_eq.
Qed.

(** C10. The name generator returns a name without a path separator,
    whatever the original name of the upload is; hence every path an
    upload writes, and every path at which the files differ after the
    request, is an entry of the content directory itself. *)
Theorem stored_file_directly_in_content_directory :
  (forall file,
      exists name,
        fst (App.filename file env w) = Ok name /\
        noSeparator name /\ regularSegment name = true /\
        Path.join (App.uploadsDir env) name
          = App.uploadsDir env +:+ "/" +:+ name) /\
  (forall path ok,
      In (FsWrite path ok) (log (snd (App.postMedia env w req))) ->
      In (FsWrite path ok) (log w) \/
      directlyIn (App.uploadsDir env) path) /\
  (forall path,
      files (snd (App.postMedia env w req)) !! path <> files w !! path ->
      directlyIn (App.uploadsDir env) path).
Proof.
  split.
  { intros file. exists (storageName w file).
    split; [reflexivity |]. split; [apply storageName_noSeparator |].
    split; [apply storageName_regular | apply storagePath_direct]. }
  upload_cases env w req.
  1-4: (split; [intros path ok Hin; now left | intros path Hne; congruence]).
  - split; [intros path ok Hin; left; congruence |].
    intros path Hne. congruence.
  - split.
    + intros path ok Hin.
      match goal with Hl : log _ = _ |- _ => rewrite Hl in Hin end.
      apply in_app_or in Hin as [Hin|[Hin|[]]]; [now left | right].
      injection Hin as <- _. apply storagePath_directlyIn.
    + intros path Hne. congruence.
  - split.
    + intros path ok Hin.
      match goal with Hl : log _ = _ |- _ => rewrite Hl in Hin end.
      apply in_app_or in Hin as [Hin|[Hin|[Hin|[]]]];
        [now left | right | discriminate].
      injection Hin as <- _. apply storagePath_directlyIn.
    + intros path Hne.
      match goal with Hf : files _ = _ |- _ => rewrite Hf in Hne end.
      destruct (decide (storagePath env w file = path)) as [<-|Hp];
        [apply storagePath_directlyIn |].
      now rewrite lookup_insert_ne in Hne.
  - split.
    + intros path ok Hin.
      match goal with Hl : log _ = _ |- _ => rewrite Hl in Hin end.
      apply in_app_or in Hin as [Hin|[Hin|[Hin|[]]]];
        [now left | right | discriminate].
      injection Hin as <- _. apply storagePath_directlyIn.
    + intros path Hne.
      match goal with Hf : files _ = _ |- _ => rewrite Hf in Hne end.
      destruct (decide (storagePath env w file = path)) as [<-|Hp];
        [apply storagePath_directlyIn |].
      now rewrite lookup_insert_ne in Hne.
Qed.

End Upload.

(** ** Delete *)

Section Delete.

Variables (env : Env) (w : World) (req : DeleteRequest).

(** The path a delete resolves to stays within the content directory
    when the name has no [..] segment. *)
Lemma deletePath_within (name : string) :
  name <> "" -> ~ In ".." (Path.segments name) ->
  withinDir (App.uploadsDir env) (deletePath env name).
Proof.
  intros Hne Hno. unfold deletePath.
  destruct (uploadsDir_normal env) as (absolute & segs & Hp).
  rewrite (join_normal_dir _ _ _ _ Hp) by assumption.
  apply joinedTail_within.
Qed.

(** C2, as amended. The delete operation neither rejects nor rewrites a
    name with parent-directory segments: the one file it can remove is
    the normalized join of the content directory and the supplied name.
    When no segment of the supplied name is [..], that file is the
    content directory or lies below it. *)
Theorem delete_removes_only_the_joined_path (name : string) :
  param_filename req = Some name ->
  (forall path,
      files w !! path <> None ->
      files (snd (App.deleteMedia env w req)) !! path = None ->
      path = Path.join (App.uploadsDir env) name) /\
  (~ In ".." (Path.segments name) ->
   forall path,
      files w !! path <> None ->
      files (snd (App.deleteMedia env w req)) !! path = None ->
      withinDir (App.uploadsDir env) path).
Proof.
  intros Hname.
  assert (Hone : forall path,
             files w !! path <> None ->
             files (snd (App.deleteMedia env w req)) !! path = None ->
             path = deletePath env name /\ name <> "").
  { intros path Hbefore Hafter. delete_cases env w req; try congruence.
    - match goal with Hf : files _ = delete _ _ |- _ =>
        rewrite Hf in Hafter end.
      assert (name0 = name) as -> by congruence.
      split; [| assumption].
      destruct (decide (deletePath env name = path)) as [<-|Hp];
        [reflexivity |].
      rewrite lookup_delete_ne in Hafter by assumption. congruence.
    - match goal with Hf : files _ = delete _ _ |- _ =>
        rewrite Hf in Hafter end.
      assert (name0 = name) as -> by congruence.
      split; [| assumption].
      destruct (decide (deletePath env name = path)) as [<-|Hp];
        [reflexivity |].
      rewrite lookup_delete_ne in Hafter by assumption. congruence. }
  split.
  - intros path Hbefore Hafter. now apply Hone.
  - intros Hno path Hbefore Hafter.
    destruct (Hone path Hbefore Hafter) as [-> Hne].
    now apply deletePath_within.
Qed.

(** X17. When the removal of a file whose path has no NUL character
    fails, because the disk refuses it or because no file exists at the
    path, the answer is 404 [File not found] and the metadata store is
    not touched: the table and its counter are as before and the only
    storage action of the request is the failed removal. *)
Theorem failed_removal_is_not_found (name : string) :
  param_filename req = Some name -> name <> "" ->
  Fs.hasNullByte (deletePath env name) = false ->
  (unlink_error env <> None \/ files w !! deletePath env name = None) ->
  answerStatus (fst (App.deleteMedia env w req)) = Some 404 /\
  (exists details,
      answerBody (fst (App.deleteMedia env w req))
      = Some (JsonError "File not found" (Some details))) /\
  uploads (snd (App.deleteMedia env w req)) = uploads w /\
  next_id (snd (App.deleteMedia env w req)) = next_id w /\
  files (snd (App.deleteMedia env w req)) = files w /\
  log (snd (App.deleteMedia env w req))
    = (log w ++ [FsUnlink (deletePath env name) false])%list.
Proof.
  intros Hname Hne Hnul Hfail.
  delete_cases env w req;
    try (match goal with
         | Hp : param_filename req = Some ?n |- _ =>
             assert (n = name) as -> by congruence
         end).
  - rewrite Hname in *. simpl in *.
    destruct (String.eqb_spec name ""); congruence.
  - congruence.
  - split; [reflexivity |]. split; [eexists; reflexivity |].
    repeat (split; [assumption |]). assumption.
  - destruct Hfail; congruence.
  - destruct Hfail; congruence.
Qed.

(** C6. The metadata delete is attempted only after the removal of the
    file has succeeded; and when the removal succeeds but the metadata
    delete fails, the answer is 500 [Internal Server Error], the file
    is gone and the rows of the table are all still there. *)
Theorem metadata_delete_follows_removal :
  exists evs : list Event,
    log (snd (App.deleteMedia env w req)) = (log w ++ evs)%list /\
    (forall (i : nat) name ok,
        evs !! i = Some (DbDelete name ok) ->
        exists j : nat,
          (j < i)%nat /\
          evs !! j = Some (FsUnlink (deletePath env name) true)) /\
    (forall path msg,
        In (FsUnlink path true) evs -> query_error env = Some msg ->
        fst (App.deleteMedia env w req)
          = Sent {| res_status := 500;
                    res_body :=
                      JsonError "Internal Server Error" (Some msg) |} /\
        files w !! path <> None /\
        files (snd (App.deleteMedia env w req)) !! path = None /\
        uploads (snd (App.deleteMedia env w req)) = uploads w /\
        exists name, In (DbDelete name false) evs).
Proof.
  delete_cases env w req.
  - exists []. split; [now rewrite app_nil_r |].
    split; [intros i ? ? Hi; now rewrite lookup_nil in Hi |].
    intros ? ? [].
  - exists []. split; [now rewrite app_nil_r |].
    split; [intros i ? ? Hi; now rewrite lookup_nil in Hi |].
    intros ? ? [].
  - eexists. split; [eassumption |]. split.
    + intros [|i] ? ? Hi; simpl in Hi; [discriminate |].
      now rewrite lookup_nil in Hi.
    + intros path m [Hev|[]]. discriminate.
  - eexists. split; [eassumption |]. split.
    + intros [|[|i]] ? ? Hi; simpl in Hi; try discriminate;
        try (now rewrite lookup_nil in Hi).
      injection Hi as <- <-. exists 0%nat. split; [lia | reflexivity].
    + intros path m [Hev|[Hev|[]]] Hq; [| discriminate].
      injection Hev as <-.
      assert (m = msg) as -> by congruence.
      split; [reflexivity |]. split; [assumption |]. split.
      * match goal with Hf : files _ = _ |- _ => rewrite Hf end.
        apply lookup_delete_eq.
      * split; [assumption |]. exists name. right. now left.
  - eexists. split; [eassumption |]. split.
    + intros [|[|i]] ? ? Hi; simpl in Hi; try discriminate;
        try (now rewrite lookup_nil in Hi).
      injection Hi as <- <-. exists 0%nat. split; [lia | reflexivity].
    + intros path m _ Hq. congruence.
Qed.

(** C9. A delete request whose name is absent or empty is answered with
    status 400 and [Filename is required] before any action on the
    disk or on the table: the server state is left as it was. *)
Theorem delete_without_name_is_client_error :
  param_filename req = None \/ param_filename req = Some "" ->
  fst (App.deleteMedia env w req)
    = Sent {| res_status := 400;
              res_body := JsonError "Filename is required" None |} /\
  (exists status,
      answerStatus (fst (App.deleteMedia env w req)) = Some status /\
      clientError status) /\
  snd (App.deleteMedia env w req) = w.
Proof.
  intros Hname.
  delete_cases env w req; try (destruct Hname; congruence).
  split; [reflexivity |]. split; [| reflexivity].
  exists 400. split; [reflexivity |]. unfold clientError; lia.
Qed.

End Delete.

(** ** The statements on sample requests *)

(** C1, as the specification states it, fails: an upload declared as
    [text/plain] is answered with status 500, which is not a status of the
    400 class. *)
Lemma unlisted_type_is_not_client_error :
  Js.includes App.allowedTypes (mimetype Sample.note) = false /\
  answerStatus (fst (App.postMedia Sample.env Sample.world
                       (Sample.request (Some Sample.note)))) = Some 500 /\
  ~ clientError 500.
Proof.
  split; [reflexivity |]. split; [vm_compute; reflexivity |].
  unfold clientError. lia.
Qed.

Lemma unlisted_type_rejected_before_storage_witness :
  req_part (Sample.request (Some Sample.note)) = Some Sample.note /\
  Js.includes App.allowedTypes (mimetype Sample.note) = false /\
  files (snd (App.postMedia Sample.env Sample.world
                (Sample.request (Some Sample.note))))
    = files Sample.world /\
  uploads (snd (App.postMedia Sample.env Sample.world
                  (Sample.request (Some Sample.note))))
    = uploads Sample.world /\
  next_id (snd (App.postMedia Sample.env Sample.world
                  (Sample.request (Some Sample.note))))
    = next_id Sample.world /\
  log (snd (App.postMedia Sample.env Sample.world
              (Sample.request (Some Sample.note))))
    = log Sample.world /\
  (originalname Sample.note <> "" ->
   answerStatus (fst (App.postMedia Sample.env Sample.world
                        (Sample.request (Some Sample.note)))) = Some 500 /\
   exists e, answerBody (fst (App.postMedia Sample.env Sample.world
                               (Sample.request (Some Sample.note))))
             = Some (ErrorPage e)).
Proof.
  split; [reflexivity |]. split; [reflexivity |].
  apply (unlisted_type_rejected_before_storage Sample.env Sample.world
           (Sample.request (Some Sample.note)) Sample.note); reflexivity.
Defined.

(** C2, as the specification states it, fails: the request
    [DELETE /media/..%2Fapp.js] is answered with status 200 and removes
    [/srv/app/app.js], a file that is not within [/srv/app/uploads]. *)
Lemma parent_segment_delete_leaves_content_directory :
  In ".." (Path.segments "../app.js") /\
  answerStatus (fst (App.deleteMedia Sample.env Sample.world
                       Sample.climbing)) = Some 200 /\
  files Sample.world !! "/srv/app/app.js" <> None /\
  files (snd (App.deleteMedia Sample.env Sample.world Sample.climbing))
    !! "/srv/app/app.js" = None /\
  ~ withinDir (App.uploadsDir Sample.env) "/srv/app/app.js".
Proof.
  split; [left; reflexivity |]. split; [vm_compute; reflexivity |].
  split; [vm_compute; discriminate |]. split; [vm_compute; reflexivity |].
  change (App.uploadsDir Sample.env) with "/srv/app/uploads".
  intros [H|[rest [H _]]]; simpl in H; discriminate H.
Qed.

Lemma delete_removes_only_the_joined_path_witness :
  param_filename Sample.stored = Some "0a.png" /\
  (forall path,
      files Sample.world !! path <> None ->
      files (snd (App.deleteMedia Sample.env Sample.world Sample.stored))
        !! path = None ->
      path = Path.join (App.uploadsDir Sample.env) "0a.png") /\
  (~ In ".." (Path.segments "0a.png") ->
   forall path,
      files Sample.world !! path <> None ->
      files (snd (App.deleteMedia Sample.env Sample.world Sample.stored))
        !! path = None ->
      withinDir (App.uploadsDir Sample.env) path).
Proof.
  split; [reflexivity |].
  apply (delete_removes_only_the_joined_path Sample.env Sample.world
           Sample.stored "0a.png"); reflexivity.
Defined.

(** C5, at the input where the code misses it. The request
    [DELETE /media/a%00b] names a file that does not exist, so that its
    removal fails; but [fs.unlink] refuses a path with a NUL character by
    throwing before its callback is ever called, and the handler, which
    answers 404 from that callback, sends no 404. On Express 5 the
    rejected promise is answered 500 by the default error handler, on
    Express 4 it is not answered at all. The metadata store is untouched
    either way. *)
Lemma nul_name_removal_is_not_answered_404 :
  param_filename Scenario.nul = Some Scenario.nulName /\
  Scenario.nulName <> "" /\
  files Sample.world !! deletePath Sample.env Scenario.nulName = None /\
  fst (App.deleteMedia Sample.env Sample.world Scenario.nul)
    = Sent (Express.defaultErrorHandler Fs.invalidPath) /\
  answerStatus (fst (App.deleteMedia Sample.env Sample.world Scenario.nul))
    = Some 500 /\
  fst (App.deleteMedia Scenario.express4 Sample.world Scenario.nul)
    = Unanswered Fs.invalidPath /\
  uploads (snd (App.deleteMedia Sample.env Sample.world Scenario.nul))
    = uploads Sample.world /\
  log (snd (App.deleteMedia Sample.env Sample.world Scenario.nul))
    = log Sample.world /\
  snd (App.deleteMedia Scenario.express4 Sample.world Scenario.nul)
    = Sample.world.
Proof.
  split; [reflexivity |]. split; [discriminate |].
  repeat split; vm_compute; reflexivity.
Qed.

Lemma failed_removal_is_not_found_witness :
  param_filename Sample.unknown = Some "nope.png" /\
  "nope.png" <> "" /\
  Fs.hasNullByte (deletePath Sample.env "nope.png") = false /\
  (unlink_error Sample.env <> None \/
   files Sample.world !! deletePath Sample.env "nope.png" = None) /\
  answerStatus (fst (App.deleteMedia Sample.env Sample.world
                       Sample.unknown)) = Some 404 /\
  (exists details,
      answerBody (fst (App.deleteMedia Sample.env Sample.world
                         Sample.unknown))
      = Some (JsonError "File not found" (Some details))) /\
  uploads (snd (App.deleteMedia Sample.env Sample.world Sample.unknown))
    = uploads Sample.world /\
  next_id (snd (App.deleteMedia Sample.env Sample.world Sample.unknown))
    = next_id Sample.world /\
  files (snd (App.deleteMedia Sample.env Sample.world Sample.unknown))
    = files Sample.world /\
  log (snd (App.deleteMedia Sample.env Sample.world Sample.unknown))
    = (log Sample.world
         ++ [FsUnlink (deletePath Sample.env "nope.png") false])%list.
Proof.
  split; [reflexivity |]. split; [discriminate |].
  split; [vm_compute; reflexivity |].
  split; [right; vm_compute; reflexivity |].
  apply (failed_removal_is_not_found Sample.env Sample.world Sample.unknown
           "nope.png");
    [reflexivity | discriminate | vm_compute; reflexivity
    | right; vm_compute; reflexivity].
Defined.

Lemma upload_without_file_is_client_error_witness :
  req_part (Sample.request None) = None /\
  fst (App.postMedia Sample.env Sample.world (Sample.request None))
    = Sent {| res_status := 400;
              res_body := JsonError "No file uploaded" None |} /\
  (exists status,
      answerStatus (fst (App.postMedia Sample.env Sample.world
                           (Sample.request None))) = Some status /\
      clientError status) /\
  snd (App.postMedia Sample.env Sample.world (Sample.request None))
    = Sample.world.
Proof.
  split; [reflexivity |].
  apply (upload_without_file_is_client_error Sample.env Sample.world
           (Sample.request None)); reflexivity.
Defined.

Lemma successful_upload_response_witness :
  answerStatus (fst (App.postMedia Sample.env Sample.world
                       (Sample.request (Some Sample.photo)))) = Some 200 /\
  answerBody (fst (App.postMedia Sample.env Sample.world
                     (Sample.request (Some Sample.photo)))) =
    Some (JsonUploaded "File uploaded successfully"
            "031425364758697a8b9cadbecfe0f100.jpg"
            "/srv/app/uploads/031425364758697a8b9cadbecfe0f100.jpg"
            "http://localhost:3001/uploads/031425364758697a8b9cadbecfe0f100.jpg") /\
  files (snd (App.postMedia Sample.env Sample.world
                (Sample.request (Some Sample.photo))))
    !! "/srv/app/uploads/031425364758697a8b9cadbecfe0f100.jpg"
    = Some Sample.bytes.
Proof.
  assert (Hs : answerStatus (fst (App.postMedia Sample.env Sample.world
                                    (Sample.request (Some Sample.photo))))
               = Some 200).
  { vm_compute. reflexivity. }
  split; [exact Hs |].
  destruct (successful_upload_response Sample.env Sample.world
              (Sample.request (Some Sample.photo)) Hs)
    as (file & Hpart & _ & Hurl & _ & _ & _ & Hfile & _).
  injection Hpart as <-.
  split.
  - rewrite (Hurl "localhost:3001" eq_refl). vm_compute. reflexivity.
  - exact Hfile.
Defined.

Lemma delete_without_name_is_client_error_witness :
  (param_filename Sample.unnamed = None \/
   param_filename Sample.unnamed = Some "") /\
  fst (App.deleteMedia Sample.env Sample.world Sample.unnamed)
    = Sent {| res_status := 400;
              res_body := JsonError "Filename is required" None |} /\
  (exists status,
      answerStatus (fst (App.deleteMedia Sample.env Sample.world
                           Sample.unnamed)) = Some status /\
      clientError status) /\
  snd (App.deleteMedia Sample.env Sample.world Sample.unnamed)
    = Sample.world.
Proof.
  split; [right; reflexivity |].
  apply (delete_without_name_is_client_error Sample.env Sample.world
           Sample.unnamed).
  right; reflexivity.
Defined.

(** * Further properties of the code *)

(** ** The extension of ordinary names *)

Section ExtnameShapes.

Variable path : string.

Lemma get_in_range (k : nat) :
  (k < String.length path)%nat -> exists c, String.get k path = Some c.
Proof.
  revert k. induction path as [|x s IH]; simpl; intros k H; [lia |].
  destruct k; [eauto | apply IH; lia].
Qed.

Lemma get_hasDot (k : nat) :
  hasDot path = false -> String.get k path <> Some Path.CHAR_DOT.
Proof.
  revert k. induction path as [|x s IH]; intros k H.
  - destruct k; discriminate.
  - simpl in H. apply orb_false_iff in H as [Hx Hs].
    destruct k; simpl.
    + intros [= ->]. discriminate.
    + now apply IH.
Qed.

(** Without a dot in the path the loop never finds the start of an
    extension. *)
Lemma extLoop_no_dot (n : nat) (st : Path.ExtState) :
  hasDot path = false -> Path.startDot st = -1 ->
  Path.startDot (Path.extLoop path n st) = -1.
Proof.
  intros Hdot. revert st. induction n as [|i IH]; intros st Hst; simpl;
    [assumption |].
  destruct (String.get i path) as [code|] eqn:Hget; [| assumption].
  destruct (Path.isPosixPathSeparator code).
  - destruct (negb (Path.matchedSlash st)); [assumption | now apply IH].
  - apply IH. unfold Path.extBody.
    assert (Hc : Ascii.eqb code Path.CHAR_DOT = false).
    { destruct (Ascii.eqb_spec code Path.CHAR_DOT) as [->|]; [| reflexivity].
      now elim (get_hasDot i Hdot). }
    rewrite Hc.
    destruct (Path.endPos st =? -1); simpl; rewrite Hst; simpl;
      (reflexivity || exact Hst).
Qed.

Lemma extname_no_dot : hasDot path = false -> Path.extname path = "".
Proof.
  intros Hdot. unfold Path.extname.
  now rewrite (extLoop_no_dot (String.length path) Path.extInit Hdot eq_refl).
Qed.

Variable d : nat.
Hypothesis d_in_range : (d < String.length path)%nat.
Hypothesis dot_at_d : String.get d path = Some Path.CHAR_DOT.
Hypothesis no_later_dot :
  forall k, (d < k)%nat -> String.get k path <> Some Path.CHAR_DOT.
Hypothesis no_separator : noSeparator path.

Lemma lastDotState_start :
  lastDotState path d (String.length path) = Path.extInit.
Proof.
  unfold lastDotState.
  destruct (Nat.ltb_spec d (String.length path)); [| lia].
  now rewrite Nat.eqb_refl.
Qed.

Lemma lastDotState_step (i : nat) (code : ascii) :
  String.get i path = Some code ->
  Path.extBody (Z.of_nat i) code (lastDotState path d (S i))
  = lastDotState path d i.
Proof.
  intros Hget.
  assert (Hlt : (i < String.length path)%nat) by (eapply get_Some_lt; eauto).
  unfold lastDotState, Path.extBody.
  destruct (Nat.ltb_spec d (S i)) as [Hd|Hd].
  - destruct (Nat.ltb_spec d i) as [Hdi|Hdi].
    + (* behind the last dot *)
      assert (Hc : Ascii.eqb code Path.CHAR_DOT = false).
      { destruct (Ascii.eqb_spec code Path.CHAR_DOT) as [->|]; [| reflexivity].
        now elim (no_later_dot i Hdi). }
      rewrite Hc.
      destruct (Nat.eqb_spec (S i) (String.length path)) as [E|E];
        destruct (Nat.eqb_spec i (String.length path)) as [E'|E'];
        try lia; simpl.
      * rewrite <- E. f_equal. lia.
      * destruct (Z.eqb_spec (Z.of_nat (String.length path)) (-1));
          [lia | reflexivity].
    + (* at the last dot *)
      assert (i = d) as -> by lia.
      assert (code = Path.CHAR_DOT) as -> by congruence.
      rewrite Nat.eqb_refl.
      destruct (Nat.eqb_spec (S d) (String.length path)) as [E|E]; simpl.
      * rewrite <- E. f_equal. lia.
      * destruct (Z.eqb_spec (Z.of_nat (String.length path)) (-1));
          [lia | reflexivity].
  - (* before the last dot *)
    destruct (Nat.ltb_spec d i) as [Hdi|Hdi]; [lia |].
    destruct (Nat.eqb_spec i d) as [Ei|Ei]; [lia |].
    rewrite Hget.
    set (pd := if (S i =? d)%nat then 0
               else match String.get (S i) path with
                    | Some c => if Ascii.eqb c Path.CHAR_DOT then 1 else -1
                    | None => -1
                    end).
    cbn [Path.endPos].
    destruct (Z.eqb_spec (Z.of_nat (String.length path)) (-1)); [lia |].
    cbn [Path.startDot Path.startPart Path.endPos Path.matchedSlash
         Path.preDotState].
    destruct (Z.eqb_spec (Z.of_nat d) (-1)); [lia |]. cbn [negb].
    destruct (Ascii.eqb_spec code Path.CHAR_DOT) as [->|Hc]; [| reflexivity].
    destruct (Z.eqb_spec pd 1) as [->|]; reflexivity.
Qed.

Lemma extLoop_lastDotState (n : nat) :
  (n <= String.length path)%nat ->
  Path.extLoop path n (lastDotState path d n) = lastDotState path d 0.
Proof.
  induction n as [|i IH]; intros Hn; [reflexivity |].
  simpl. destruct (get_in_range i ltac:(lia)) as [code Hget].
  rewrite Hget.
  assert (Hsep : Path.isPosixPathSeparator code = false).
  { unfold Path.isPosixPathSeparator.
    destruct (Ascii.eqb_spec code Path.CHAR_FORWARD_SLASH) as [->|];
      [| reflexivity].
    now elim (get_noSeparator path i no_separator). }
  rewrite Hsep, (lastDotState_step i code Hget). apply IH. lia.
Qed.

Lemma lastDotState_end :
  lastDotState path d 0 =
    {| Path.startDot := Z.of_nat d; Path.startPart := 0;
       Path.endPos := Z.of_nat (String.length path);
       Path.matchedSlash := false;
       Path.preDotState :=
         if (0 =? d)%nat then 0
         else match String.get 0 path with
              | Some c => if Ascii.eqb c Path.CHAR_DOT then 1 else -1
              | None => -1
              end |}.
Proof.
  unfold lastDotState. destruct (Nat.ltb_spec d 0); [lia | reflexivity].
Qed.

(** The extension of a name without separators: nothing when the last
    dot opens the name or the name is [..], the text from the last dot on
    otherwise. *)
Lemma extname_last_dot :
  Path.extname path =
    if (d =? 0)%nat || String.eqb path ".." then ""
    else String.substring d (String.length path - d) path.
Proof.
  unfold Path.extname.
  rewrite <- lastDotState_start, extLoop_lastDotState by lia.
  rewrite lastDotState_end. cbv zeta.
  cbn [Path.startDot Path.startPart Path.endPos Path.matchedSlash
       Path.preDotState].
  destruct (Z.eqb_spec (Z.of_nat d) (-1)); [lia |].
  destruct (Z.eqb_spec (Z.of_nat (String.length path)) (-1)); [lia |].
  cbn [orb].
  assert (Hslice : Js.slice path (Z.of_nat d) (Z.of_nat (String.length path))
                   = String.substring d (String.length path - d) path).
  { unfold Js.slice. f_equal; lia. }
  rewrite Hslice.
  destruct (Nat.eqb_spec 0 d) as [E0|E0].
  - destruct (Nat.eqb_spec d 0); [reflexivity | lia].
  - destruct (Nat.eqb_spec d 0) as [|_]; [lia |]. cbn [orb].
    destruct (String.eqb_spec path "..") as [E|E].
    + assert (Hd : d = 1%nat).
      { rewrite E in d_in_range. simpl in d_in_range. lia. }
      rewrite E, Hd. reflexivity.
    + match goal with
      | |- (if ?c then _ else _) = _ => destruct c eqn:Hcond
      end; [exfalso | reflexivity].
      apply orb_true_iff in Hcond as [Hcond|Hcond].
      { destruct (String.get 0 path) as [c|];
          [destruct (Ascii.eqb c Path.CHAR_DOT) |]; discriminate. }
      apply andb_true_iff in Hcond as [Hcond H1].
      apply andb_true_iff in Hcond as [Hpd HL].
      apply Z.eqb_eq in H1, HL.
      assert (Hd : d = 1%nat) by lia.
      assert (Hlen : String.length path = 2%nat) by lia.
      apply E. rewrite Hd in dot_at_d.
      destruct path as [|c0 [|c1 [|c2 rest]]]; simpl in Hlen; try lia.
      simpl in dot_at_d, Hpd.
      destruct (Ascii.eqb_spec c0 Path.CHAR_DOT) as [->|];
        [| discriminate].
      injection dot_at_d as ->. reflexivity.
Qed.

End ExtnameShapes.

Section StemAndExtension.

Lemma length_append (a b : string) :
  String.length (a +:+ b) = (String.length a + String.length b)%nat.
Proof. induction a as [|x a IH]; simpl; [reflexivity | now rewrite IH]. Qed.

Lemma get_append_right (a b : string) (k : nat) :
  String.get (String.length a + k) (a +:+ b) = String.get k b.
Proof. induction a as [|x a IH]; simpl; [reflexivity | exact IH]. Qed.

Lemma substring_whole (s : string) :
  String.substring 0 (String.length s) s = s.
Proof. induction s as [|x s IH]; simpl; [reflexivity | now rewrite IH]. Qed.

Lemma substring_append_right (a b : string) :
  String.substring (String.length a) (String.length b) (a +:+ b) = b.
Proof.
  induction a as [|x a IH]; simpl; [apply substring_whole | exact IH].
Qed.

Lemma length_zero (s : string) : String.length s = 0%nat -> s = "".
Proof. destruct s; [reflexivity | discriminate]. Qed.

(** If two strings with heads of the same length are equal, so are the
    heads and so are the tails. *)
Lemma append_same_length (a1 a2 b1 b2 : string) :
  String.length a1 = String.length a2 ->
  a1 +:+ b1 = a2 +:+ b2 -> a1 = a2 /\ b1 = b2.
Proof.
  revert a2. induction a1 as [|x a1 IH]; intros [|y a2] Hlen Heq;
    simpl in *; try discriminate.
  - now split.
  - injection Heq as -> Heq. injection Hlen as Hlen.
    destruct (IH a2 Hlen Heq) as [-> ->]. now split.
Qed.

(** The extension of [stem.ext], where [ext] has no dot and neither part
    has a separator: [.ext], unless the stem is empty or the whole name is
    [..]. *)
Lemma extname_stem_ext (stem ext : string) :
  noSeparator stem -> noSeparator ext -> hasDot ext = false ->
  Path.extname (stem +:+ "." +:+ ext) =
    if String.eqb stem "" || String.eqb (stem +:+ "." +:+ ext) ".."
    then "" else "." +:+ ext.
Proof.
  intros Hstem Hext Hdot.
  set (path := stem +:+ "." +:+ ext).
  assert (Hlen : String.length path
                 = (String.length stem + S (String.length ext))%nat).
  { unfold path. now rewrite length_append. }
  rewrite (extname_last_dot path (String.length stem)).
  - destruct (Nat.eqb_spec (String.length stem) 0) as [E|E];
      destruct (String.eqb_spec stem "") as [Es|Es].
    + reflexivity.
    + elim Es. now apply length_zero.
    + subst stem. now elim E.
    + cbn [orb]. destruct (String.eqb path ".."); [reflexivity |].
      replace (String.length path - String.length stem)%nat
        with (String.length ("." +:+ ext)) by (simpl; lia).
      apply substring_append_right.
  - lia.
  - unfold path. rewrite <- (Nat.add_0_r (String.length stem)).
    now rewrite get_append_right.
  - intros k Hk. unfold path.
    replace k with (String.length stem + S (k - S (String.length stem)))%nat
      by lia.
    rewrite get_append_right. simpl. now apply get_hasDot.
  - unfold path. apply noSeparator_append; [assumption |].
    unfold noSeparator in *. simpl. exact Hext.
Qed.

End StemAndExtension.

(** ** The name generator, as a whole *)

(** C4. The storage name is a token followed by the extension of the
    original name. The token is the hexadecimal rendering of the 16 bytes
    that [crypto.randomBytes] delivers: 32 lower-case hexadecimal digits
    from which the 16 bytes, all 128 bits, can be read back, so that no
    other bytes give the same token. The extension is what [path.extname]
    cuts out of the original name: it occurs in the original name
    character for character, it is empty or starts with the dot, and for
    an original name without separators it is the end of the name, namely
    nothing when the name has no dot, and otherwise the text from the last
    dot on, dot and case included, unless that dot opens the name or the
    name is [..]. *)
Theorem storage_name_is_token_and_extension
    (env : Env) (w : World) (file : FilePart) :
  exists random token,
    fst (Crypto.randomBytes 16 env w) = Ok random /\
    List.length random = 16%nat /\
    token = Buffer.toHex random /\
    String.length token = 32%nat /\
    allHex token = true /\
    Buffer.fromHex token = Some random /\
    (forall other, Buffer.toHex other = token -> other = random) /\
    fst (App.filename file env w)
      = Ok (token +:+ Path.extname (originalname file)) /\
    occursIn (Path.extname (originalname file)) (originalname file) /\
    (Path.extname (originalname file) = "" \/
     exists rest, Path.extname (originalname file)
                  = String Path.CHAR_DOT rest) /\
    (noSeparator (originalname file) ->
     exists stem,
       originalname file = stem +:+ Path.extname (originalname file)) /\
    (hasDot (originalname file) = false ->
     Path.extname (originalname file) = "") /\
    (forall stem ext,
        originalname file = stem +:+ "." +:+ ext ->
        noSeparator stem -> noSeparator ext -> hasDot ext = false ->
        Path.extname (originalname file) =
          if String.eqb stem "" || String.eqb (originalname file) ".."
          then "" else "." +:+ ext).
Proof.
  destruct (randomBytes_length 16 env w) as (random & Hrun & Hrandom & Hlen).
  exists random, (Buffer.toHex random).
  split; [assumption |]. split; [assumption |]. split; [reflexivity |].
  split; [rewrite toHex_length, Hlen; reflexivity |].
  split; [apply toHex_allHex |]. split; [apply fromHex_toHex |].
  split; [intros other Hother; now apply toHex_inj |].
  split; [rewrite Hrandom; reflexivity |].
  split; [apply extname_occursIn |].
  split; [apply extname_starts_with_dot |].
  split; [apply extname_suffix |].
  split; [apply extname_no_dot |].
  intros stem ext Hname Hstem Hext Hdot. rewrite Hname.
  now apply extname_stem_ext.
Qed.

(** ** More on the name generator *)

Section NameShapes.

Variables (env : Env) (w : World) (file : FilePart).

(** X14. A file whose original name has no dot is stored under the bare token:
    no extension is appended. *)
Theorem name_without_dot_gets_bare_token :
  hasDot (originalname file) = false ->
  fst (App.filename file env w)
    = Ok (Buffer.toHex (map (entropy w) (seq 0 16))) /\
  String.length (storageName w file) = 32%nat.
Proof.
  intros Hdot.
  assert (E : storageName w file = Buffer.toHex (map (entropy w) (seq 0 16))).
  { unfold storageName. rewrite (extname_no_dot _ Hdot).
    apply append_nil_r. }
  split.
  - change (fst (App.filename file env w)) with (Ok (storageName w file)).
    now rewrite E.
  - rewrite E, toHex_length, length_map, length_seq. reflexivity.
Qed.

(** X15. A file named [stem.ext], with a stem that is not empty, an [ext]
    without dots and no separator anywhere, is stored under the token
    followed by [.ext] as the client wrote it: of several extensions only
    the last one is kept. *)
Theorem ordinary_name_keeps_last_extension (stem ext : string) :
  originalname file = stem +:+ "." +:+ ext ->
  noSeparator stem -> noSeparator ext -> hasDot ext = false ->
  stem <> "" -> originalname file <> ".." ->
  fst (App.filename file env w)
    = Ok (Buffer.toHex (map (entropy w) (seq 0 16)) +:+ "." +:+ ext).
Proof.
  intros Hname Hstem Hext Hdot Hne Hup.
  change (fst (App.filename file env w)) with (Ok (storageName w file)).
  unfold storageName. rewrite Hname in Hup |- *.
  rewrite (extname_stem_ext stem ext Hstem Hext Hdot).
  destruct (String.eqb_spec stem "") as [|_]; [congruence |].
  destruct (String.eqb_spec (stem +:+ "." +:+ ext) "..") as [|_];
    [congruence | reflexivity].
Qed.

(** X16. A file whose name starts with its only dot, such as [.bashrc], is
    stored under the bare token: what follows the dot is not taken for an
    extension. *)
Theorem dotfile_gets_bare_token (rest : string) :
  originalname file = "." +:+ rest ->
  noSeparator rest -> hasDot rest = false ->
  fst (App.filename file env w)
    = Ok (Buffer.toHex (map (entropy w) (seq 0 16))).
Proof.
  intros Hname Hrest Hdot.
  change (fst (App.filename file env w)) with (Ok (storageName w file)).
  unfold storageName. rewrite Hname.
  change ("." +:+ rest) with ("" +:+ "." +:+ rest).
  rewrite (extname_stem_ext "" rest eq_refl Hrest Hdot).
  cbn [String.eqb orb]. now rewrite append_nil_r.
Qed.

End NameShapes.

(** X13. Two storage names are equal only when they were made from the same 16
    random bytes and the same extension: names can collide only if the
    random source repeats itself. *)
Theorem equal_names_come_from_equal_bytes
    (w1 w2 : World) (file1 file2 : FilePart) :
  storageName w1 file1 = storageName w2 file2 ->
  map (entropy w1) (seq 0 16) = map (entropy w2) (seq 0 16) /\
  Path.extname (originalname file1) = Path.extname (originalname file2).
Proof.
  unfold storageName. intros Heq.
  apply append_same_length in Heq as [Htoken Hext].
  - split; [now apply toHex_inj | assumption].
  - now rewrite !toHex_length, !length_map, !length_seq.
Qed.

(** ** More on uploads *)

Lemma includes_In (arr : list string) (x : string) :
  Js.includes arr x = true <-> In x arr.
Proof.
  induction arr as [|y arr IH]; simpl.
  - split; [discriminate | tauto].
  - destruct (String.eqb_spec y x) as [->|Hne].
    + split; [now left | reflexivity].
    + rewrite IH. split; [now right | intros [E|H]; [congruence | exact H]].
Qed.

Section UploadMore.

Variables (env : Env) (w : World) (req : UploadRequest).


(** X3. When the file is written (its generated path has no NUL
    character and the disk does not fail) but the metadata insert fails,
    the answer is 500 [Internal Server Error] with the message of the
    database as details, the message is logged, the table is unchanged and
    the file stays on disk under its generated path: a file without a
    row. *)
Theorem failed_insert_leaves_the_file (file : FilePart) (msg : string) :
  req_part req = Some file -> originalname file <> "" ->
  fieldname file = "file" -> In (mimetype file) App.allowedTypes ->
  Fs.hasNullByte (storagePath env w file) = false ->
  write_error env = None ->
  query_error env = Some msg ->
  fst (App.postMedia env w req)
    = Sent {| res_status := 500;
              res_body := JsonError "Internal Server Error" (Some msg) |} /\
  files (snd (App.postMedia env w req)) !! storagePath env w file
    = Some (content file) /\
  uploads (snd (App.postMedia env w req)) = uploads w /\
  In msg (console (snd (App.postMedia env w req))).
Proof.
  intros Hpart Hname Hfield Hmime Hnul Hwrite Hquery.
  apply includes_In in Hmime.
  upload_cases env w req; try congruence.
  assert (file0 = file) as -> by congruence.
  assert (msg0 = msg) as -> by congruence.
  split; [reflexivity |]. split; [| split; [assumption |]].
  - match goal with Hf : files _ = _ |- _ => rewrite Hf end.
    apply lookup_insert_eq.
  - match goal with Hc : console _ = _ |- _ => rewrite Hc end.
    apply in_or_app. right. now left.
Qed.

(** X4. A file sent under a field other than [file] is refused, whatever
    its type: the answer is the default error handler's 500 for multer's
    [Unexpected field], and nothing is written or inserted: the world is
    as it was but for the line the default error handler prints, so disk,
    table, counter and log of storage actions are unchanged. *)
Theorem other_field_is_refused (file : FilePart) :
  req_part req = Some file -> originalname file <> "" ->
  fieldname file <> "file" ->
  fst (App.postMedia env w req)
    = Sent (Express.defaultErrorHandler Multer.unexpectedFile) /\
  answerStatus (fst (App.postMedia env w req)) = Some 500 /\
  snd (App.postMedia env w req)
    = Express.logerror Multer.unexpectedFile env w /\
  files (snd (App.postMedia env w req)) = files w /\
  uploads (snd (App.postMedia env w req)) = uploads w /\
  next_id (snd (App.postMedia env w req)) = next_id w /\
  log (snd (App.postMedia env w req)) = log w.
Proof.
  intros Hpart Hname Hfield.
  upload_cases env w req; try congruence.
  repeat split; reflexivity.
Qed.


End UploadMore.

(** ** Names in the content directory *)

Section PlainNames.

Variable env : Env.

Lemma plainName_no_parent (name : string) :
  plainName name -> name <> "" /\ ~ In ".." (Path.segments name).
Proof.
  intros [Hreg Hsep]. split.
  - intros ->. discriminate.
  - rewrite segments_single by assumption.
    intros [E|[]]. rewrite E in Hreg. discriminate.
Qed.

(** A plain name is joined to the content directory as it stands. *)
Lemma join_plain_name (name : string) :
  plainName name ->
  Path.join (App.uploadsDir env) name = App.uploadsDir env +:+ "/" +:+ name.
Proof.
  intros Hplain. destruct (plainName_no_parent name Hplain) as [Hne Hno].
  destruct Hplain as [Hreg Hsep].
  destruct (uploadsDir_normal env) as (absolute & segs & Hp).
  rewrite (join_normal_dir _ _ _ _ Hp) by assumption.
  now rewrite joinedTail_name.
Qed.

(** So is the same name written after [./]. *)
Lemma join_dotted_name (name : string) :
  plainName name ->
  Path.join (App.uploadsDir env) ("./" +:+ name)
  = App.uploadsDir env +:+ "/" +:+ name.
Proof.
  intros [Hreg Hsep].
  destruct (uploadsDir_normal env) as (absolute & segs & Hp).
  assert (Hsegs : Path.segments ("./" +:+ name) = ["."; name]).
  { change ("./" +:+ name) with ("." +:+ "/" +:+ name).
    rewrite segments_append_slash, (segments_single name) by assumption.
    reflexivity. }
  assert (Hname : name <> "") by (intros ->; discriminate).
  assert (Hends : Path.endsWithSlash ("./" +:+ name) = false).
  { rewrite (endsWithSlash_append "./" name Hname).
    now apply endsWithSlash_noSeparator. }
  rewrite (join_normal_dir _ _ _ _ Hp).
  - unfold joinedTail. rewrite Hsegs, Hends. simpl. rewrite Hreg.
    simpl. now rewrite append_nil_r.
  - discriminate.
  - rewrite Hsegs. intros [E|[E|[]]]; [discriminate |].
    rewrite E in Hreg. discriminate.
Qed.

Lemma storageName_plain (w : World) (file : FilePart) :
  plainName (storageName w file).
Proof.
  split; [apply storageName_regular | apply storageName_noSeparator].
Qed.

(** Different names have different paths in the content directory. *)
Lemma entry_path_inj (n1 n2 : string) :
  App.uploadsDir env +:+ "/" +:+ n1 = App.uploadsDir env +:+ "/" +:+ n2 ->
  n1 = n2.
Proof.
  intros H. apply String.app_inj in H. now apply String.app_inj in H.
Qed.

Lemma consistentRow_files (w w' : World) (row : Row) :
  (forall p, files w !! p <> None -> files w' !! p <> None) ->
  consistentRow env w row -> consistentRow env w' row.
Proof.
  intros Hgrow (Hplain & Hpath & Hfile).
  split; [assumption |]. split; [assumption | now apply Hgrow].
Qed.

End PlainNames.

Lemma rowsNamed_app (name : string) (rows1 rows2 : list Row) :
  rowsNamed name (rows1 ++ rows2)
  = (rowsNamed name rows1 ++ rowsNamed name rows2)%list.
Proof. apply List.filter_app. Qed.

(** Removing the rows of one name removes all of them and leaves the rows
    of every other name where they were. *)
Lemma rowsNamed_after_delete (name other : string) (rows : list Row) :
  rowsNamed other
    (List.filter (fun r => negb (String.eqb (file_name r) name)) rows)
  = if String.eqb other name then [] else rowsNamed other rows.
Proof.
  induction rows as [|r rows IH]; simpl.
  - now destruct (String.eqb other name).
  - destruct (String.eqb_spec (file_name r) name) as [En|En]; simpl.
    + rewrite IH.
      destruct (String.eqb_spec other name) as [Eo|Eo]; [reflexivity |].
      destruct (String.eqb_spec (file_name r) other) as [E|E];
        [congruence | reflexivity].
    + destruct (String.eqb_spec (file_name r) other) as [E|E]; rewrite IH.
      * destruct (String.eqb_spec other name) as [Eo|Eo];
          [congruence | reflexivity].
      * reflexivity.
Qed.

Lemma filter_none_named (name : string) (rows : list Row) :
  rowsNamed name rows = [] ->
  List.filter (fun r => negb (String.eqb (file_name r) name)) rows = rows.
Proof.
  induction rows as [|r rows IH]; simpl; [reflexivity |].
  destruct (String.eqb (file_name r) name); simpl; [discriminate |].
  intros H. now rewrite IH.
Qed.

(** ** More on deletes *)

Lemma falsy_name (name : string) :
  name <> "" -> Js.falsy (Some name) = false.
Proof. intros H. simpl. now destruct (String.eqb_spec name ""). Qed.

(** The answer to a rejected handler is never 200, 400 or 404. *)
Lemma rejected_invalidPath_status (env : Env) (w : World) :
  answerStatus (fst (Express.rejected Fs.invalidPath env w))
  = match express env with
    | Express5 => Some 500
    | Express4 => None
    end.
Proof. rewrite rejected_status. reflexivity. Qed.

Ltac thrown_absurd :=
  match goal with
  | H : answerStatus (fst (Express.rejected Fs.invalidPath ?env _)) = Some _
    |- _ =>
      rewrite rejected_invalidPath_status in H;
      destruct (express env); discriminate H
  end.

Section DeleteMore.

Variables (env : Env) (w : World) (req : DeleteRequest).

(** X6. [DELETE /media/:filename] answers 404 exactly when a name is
    given, its path is one the file system accepts (it has no NUL
    character) and the removal of the file fails; it answers 200 exactly
    when a name is given, its path is accepted, the file exists and can be
    removed, and the database does not fail. For a name whose path has a
    NUL character [fs.unlink] throws before it calls back: the answer is
    the default error handler's 500 on Express 5, and there is no answer
    on Express 4. *)
Theorem delete_status_cases :
  (answerStatus (fst (App.deleteMedia env w req)) = Some 404 <->
   exists name,
     param_filename req = Some name /\ name <> "" /\
     Fs.hasNullByte (deletePath env name) = false /\
     (unlink_error env <> None \/ files w !! deletePath env name = None)) /\
  (answerStatus (fst (App.deleteMedia env w req)) = Some 200 <->
   exists name,
     param_filename req = Some name /\ name <> "" /\
     Fs.hasNullByte (deletePath env name) = false /\
     unlink_error env = None /\ files w !! deletePath env name <> None /\
     query_error env = None) /\
  (forall name,
      param_filename req = Some name -> name <> "" ->
      Fs.hasNullByte (deletePath env name) = true ->
      fst (App.deleteMedia env w req)
      = match express env with
        | Express5 => Sent (Express.defaultErrorHandler Fs.invalidPath)
        | Express4 => Unanswered Fs.invalidPath
        end).
Proof.
  delete_cases env w req.
  - (* no name *)
    match goal with Hf : Js.falsy _ = true |- _ => rename Hf into Hfalsy end.
    assert (Hnone : forall name,
               param_filename req = Some name -> name <> "" -> False).
    { intros name Hp Hn. rewrite Hp, (falsy_name name Hn) in Hfalsy.
      discriminate. }
    split; [| split].
    + split; [discriminate |].
      intros (name & Hp & Hn & _); elim (Hnone name Hp Hn).
    + split; [discriminate |].
      intros (name & Hp & Hn & _); elim (Hnone name Hp Hn).
    + intros name Hp Hn _. elim (Hnone name Hp Hn).
  - (* the path is refused *)
    match goal with Hp : param_filename req = Some _ |- _ =>
      rename Hp into Hparam end.
    split; [| split].
    + split; [intros Hs; thrown_absurd |].
      intros (name' & Hp & _ & Hnul & _). congruence.
    + split; [intros Hs; thrown_absurd |].
      intros (name' & Hp & _ & Hnul & _). congruence.
    + intros _ _ _ _. unfold Express.rejected, Express.next.
      now destruct (express env).
  - (* the removal failed *)
    match goal with Hp : param_filename req = Some _ |- _ =>
      rename Hp into Hparam end.
    split; [| split].
    + split; [| reflexivity]. intros _. exists name.
      split; [assumption |]. split; [assumption |]. split; [assumption |].
      match goal with Hu : _ \/ _ |- _ =>
        destruct Hu as [Hu|(Hu & Hf & _)] end;
        [left; congruence | now right].
    + split; [discriminate |].
      intros (name' & Hp & _ & _ & Hu & Hf & _).
      assert (name' = name) as -> by congruence.
      match goal with Hu' : _ \/ _ |- _ =>
        destruct Hu' as [?|(_ & ? & _)] end; congruence.
    + intros name' Hp _ Hnul. congruence.
  - (* the query failed *)
    match goal with Hp : param_filename req = Some _ |- _ =>
      rename Hp into Hparam end.
    split; [| split].
    + split; [discriminate |]. intros (name' & Hp & _ & _ & [Hu|Hf]).
      * congruence.
      * assert (name' = name) as -> by congruence. congruence.
    + split; [discriminate |].
      intros (name' & _ & _ & _ & _ & _ & Hq). congruence.
    + intros name' Hp _ Hnul. congruence.
  - (* removed *)
    match goal with Hp : param_filename req = Some _ |- _ =>
      rename Hp into Hparam end.
    split; [| split].
    + split; [discriminate |]. intros (name' & Hp & _ & _ & [Hu|Hf]).
      * congruence.
      * assert (name' = name) as -> by congruence. congruence.
    + split; [| reflexivity]. intros _. exists name. auto 7.
    + intros name' Hp _ Hnul. congruence.
Qed.

(** X7. A delete only removes. Every file on disk afterwards was there
    before with the same bytes, every row afterwards was there before,
    and a row whose name differs from the parameter is never removed,
    whichever file the parameter resolves to. After an answer of 200 no
    row with the name of the parameter is left, and after any other
    answer, or none, the table is as it was. *)
Theorem delete_only_removes :
  (forall p data,
      files (snd (App.deleteMedia env w req)) !! p = Some data ->
      files w !! p = Some data) /\
  (forall row,
      In row (uploads (snd (App.deleteMedia env w req))) ->
      In row (uploads w)) /\
  (forall row,
      In row (uploads w) -> Some (file_name row) <> param_filename req ->
      In row (uploads (snd (App.deleteMedia env w req)))) /\
  (answerStatus (fst (App.deleteMedia env w req)) = Some 200 ->
   forall row,
     In row (uploads (snd (App.deleteMedia env w req))) ->
     Some (file_name row) <> param_filename req) /\
  (answerStatus (fst (App.deleteMedia env w req)) <> Some 200 ->
   uploads (snd (App.deleteMedia env w req)) = uploads w).
Proof.
  delete_cases env w req.
  - split; [auto |]. split; [auto |]. split; [auto |].
    split; [discriminate | reflexivity].
  - split; [auto |]. split; [auto |]. split; [auto |].
    split; [intros Hs; thrown_absurd | reflexivity].
  - split; [intros p data; congruence |].
    split; [intros row; congruence |].
    split; [intros row; congruence |].
    split; [discriminate | intros _; assumption].
  - match goal with Hf : files _ = _ |- _ => rename Hf into Hfiles end.
    split.
    { intros p data Hp. rewrite Hfiles in Hp.
      apply lookup_delete_Some in Hp. tauto. }
    split; [intros row; congruence |].
    split; [intros row; congruence |].
    split; [discriminate | intros _; assumption].
  - match goal with Hf : files _ = _ |- _ => rename Hf into Hfiles end.
    match goal with Hu : uploads _ = _ |- _ => rename Hu into Huploads end.
    match goal with Hp : param_filename req = Some _ |- _ =>
      rename Hp into Hparam end.
    split.
    { intros p data Hp. rewrite Hfiles in Hp.
      apply lookup_delete_Some in Hp. tauto. }
    split.
    { intros row Hrow. rewrite Huploads in Hrow.
      now apply filter_In in Hrow as [Hrow _]. }
    split.
    { intros row Hrow Hne. rewrite Huploads. apply filter_In.
      split; [assumption |].
      destruct (String.eqb_spec (file_name row) name) as [E|_];
        [| reflexivity].
      elim Hne. now rewrite Hparam, E. }
    split.
    { intros _ row Hrow Heq. rewrite Huploads in Hrow.
      apply filter_In in Hrow as [_ Hrow]. rewrite Hparam in Heq.
      injection Heq as Heq. rewrite Heq, String.eqb_refl in Hrow.
      discriminate. }
    intros Hnot. now elim Hnot.
Qed.

(** X8. The second of two deletes of the same name, with nothing in between,
    is answered 404 and changes neither disk nor table: the file went
    with the first. *)
Theorem second_delete_is_not_found :
  answerStatus (fst (App.deleteMedia env w req)) = Some 200 ->
  answerStatus (fst (App.deleteMedia env
                       (snd (App.deleteMedia env w req)) req)) = Some 404 /\
  files (snd (App.deleteMedia env (snd (App.deleteMedia env w req)) req))
    = files (snd (App.deleteMedia env w req)) /\
  uploads (snd (App.deleteMedia env (snd (App.deleteMedia env w req)) req))
    = uploads (snd (App.deleteMedia env w req)).
Proof.
  intros Hfirst.
  delete_cases env w req; try discriminate Hfirst; try thrown_absurd.
  match goal with Hf : files _ = _ |- _ => rename Hf into Hfiles end.
  assert (Hgone : files w0 !! deletePath env name = None).
  { rewrite Hfiles. apply lookup_delete_eq. }
  delete_cases env w0 req; try congruence.
  - match goal with Hf : Js.falsy _ = true |- _ => rename Hf into Hfalsy end.
    match goal with Hp : param_filename req = Some _ |- _ =>
      rewrite Hp, falsy_name in Hfalsy by assumption end.
    discriminate.
  - split; [reflexivity |]. split; assumption.
Qed.

End DeleteMore.

(** ** Table and disk together *)

Section Agreement.

Variables (env : Env) (w : World).

(** X10. Uploads keep the table in agreement with the disk: if every row
    records a plain name, the path of that name in the content directory
    and a file that exists, the same holds after any upload request,
    whether it succeeds or fails. *)
Theorem upload_keeps_rows_with_files (req : UploadRequest) :
  Consistent env w -> Consistent env (snd (App.postMedia env w req)).
Proof.
  intros Hcons.
  assert (Hsame : forall w',
             files w' = files w -> uploads w' = uploads w ->
             Consistent env w').
  { intros w' Hf Hu row Hrow. rewrite Hu in Hrow.
    apply (consistentRow_files env w); [intros p; congruence |].
    now apply Hcons. }
  upload_cases env w req; try assumption;
    try (apply Hsame; first [assumption | apply logerror_files
                            | apply logerror_uploads]).
  - (* the write failed *)
    apply Hsame; rewrite ?logerror_files, ?logerror_uploads; assumption.
  - (* the insert failed *)
    match goal with Hf : files _ = _ |- _ => rename Hf into Hfiles end.
    intros row Hrow.
    match goal with Hu : uploads _ = uploads w |- _ =>
      rewrite Hu in Hrow end.
    apply (consistentRow_files env w); [| now apply Hcons].
    intros p Hp. rewrite Hfiles.
    destruct (decide (storagePath env w file = p)) as [<-|Hne].
    + now rewrite lookup_insert_eq.
    + now rewrite lookup_insert_ne.
  - (* stored *)
    match goal with Hf : files _ = _ |- _ => rename Hf into Hfiles end.
    assert (Hgrow : forall p, files w !! p <> None -> files w0 !! p <> None).
    { intros p Hp. rewrite Hfiles.
      destruct (decide (storagePath env w file = p)) as [<-|Hne].
      - now rewrite lookup_insert_eq.
      - now rewrite lookup_insert_ne. }
    intros row Hrow.
    match goal with Hu : uploads _ = _ |- _ => rewrite Hu in Hrow end.
    apply in_app_or in Hrow as [Hrow|[<-|[]]].
    + apply (consistentRow_files env w); [assumption | now apply Hcons].
    + split; [apply storageName_plain |].
      split; [apply storagePath_direct |].
      simpl. rewrite Hfiles. now rewrite lookup_insert_eq.
Qed.

(** X11. A delete by a plain name keeps the table in agreement with the disk
    unless it is answered 500: the one answer after which a row is left
    without its file. *)
Theorem delete_keeps_rows_with_files (req : DeleteRequest) (name : string) :
  Consistent env w ->
  param_filename req = Some name -> plainName name ->
  answerStatus (fst (App.deleteMedia env w req)) <> Some 500 ->
  Consistent env (snd (App.deleteMedia env w req)).
Proof.
  intros Hcons Hparam Hplain Hstatus.
  assert (Hsame : forall w',
             files w' = files w -> uploads w' = uploads w ->
             Consistent env w').
  { intros w' Hf Hu row Hrow. rewrite Hu in Hrow.
    apply (consistentRow_files env w); [intros p; congruence |].
    now apply Hcons. }
  delete_cases env w req; try assumption.
  - apply Hsame; [apply rejected_files | apply rejected_uploads].
  - now apply Hsame.
  - now elim Hstatus.
  - match goal with Hf : files _ = _ |- _ => rename Hf into Hfiles end.
    assert (name0 = name) as -> by congruence.
    intros row Hrow.
    match goal with Hu : uploads _ = _ |- _ => rewrite Hu in Hrow end.
    apply filter_In in Hrow as [Hrow Hne].
    destruct (Hcons row Hrow) as (Hrplain & Hrpath & Hrfile).
    split; [assumption |]. split; [assumption |].
    rewrite Hfiles, lookup_delete_ne; [assumption |].
    unfold deletePath. rewrite (join_plain_name env name Hplain), Hrpath.
    intros E. apply entry_path_inj in E.
    rewrite <- E, String.eqb_refl in Hne. discriminate.
Qed.

(** X12. The same file can be named in more than one way, and the table is
    searched for the name as it was sent: on a disk whose paths have no
    NUL character, as every real disk, a delete of [./name] removes the
    file of [name] with an answer of 200 and leaves every row of [name]
    in the table. *)
Theorem dotted_name_removes_file_but_keeps_rows (name : string) :
  validDisk w ->
  plainName name ->
  unlink_error env = None -> query_error env = None ->
  files w !! (App.uploadsDir env +:+ "/" +:+ name) <> None ->
  answerStatus (fst (App.deleteMedia env w
                       {| param_filename := Some ("./" +:+ name) |}))
    = Some 200 /\
  files (snd (App.deleteMedia env w
                {| param_filename := Some ("./" +:+ name) |}))
    !! (App.uploadsDir env +:+ "/" +:+ name) = None /\
  rowsNamed name
    (uploads (snd (App.deleteMedia env w
                     {| param_filename := Some ("./" +:+ name) |})))
  = rowsNamed name (uploads w).
Proof.
  intros Hdisk Hplain Hunlink Hquery Hfile.
  pose proof (join_dotted_name env name Hplain) as Hjoin.
  pose proof (Hdisk _ Hfile) as Hnul.
  assert (Hother : String.eqb name ("./" +:+ name) = false).
  { destruct (String.eqb_spec name ("./" +:+ name)) as [E|]; [| reflexivity].
    apply (f_equal String.length) in E. simpl in E. lia. }
  delete_cases env w {| param_filename := Some ("./" +:+ name) |};
    cbn [param_filename] in *;
    try (match goal with
         | Hp : Some _ = Some _ |- _ => injection Hp as <-
         end);
    change (String "." (String "/" name)) with ("./" +:+ name) in *;
    try discriminate; try congruence.
  - match goal with Ht : Fs.hasNullByte _ = true |- _ =>
      unfold deletePath in Ht; rewrite Hjoin in Ht end.
    congruence.
  - match goal with Hu : _ \/ _ |- _ =>
      destruct Hu as [?|(_ & Hnone & _)] end; [congruence |].
    unfold deletePath in Hnone. rewrite Hjoin in Hnone. congruence.
  - split; [reflexivity |]. split.
    + match goal with Hf : files _ = _ |- _ => rewrite Hf end.
      unfold deletePath. rewrite Hjoin. apply lookup_delete_eq.
    + match goal with Hu : uploads _ = _ |- _ => rewrite Hu end.
      now rewrite rowsNamed_after_delete, Hother.
Qed.

(** X9. Upload and delete undo each other. After a successful upload, a
    delete by the name the upload returned is answered 200 (the disk
    permitting), removes the file the upload wrote and the row it
    inserted; if the path was free and the name unused before the upload,
    disk and table are back to what they were. *)
Theorem upload_then_delete_restores (req : UploadRequest) (file : FilePart) :
  req_part req = Some file ->
  answerStatus (fst (App.postMedia env w req)) = Some 200 ->
  unlink_error env = None ->
  let uploaded := snd (App.postMedia env w req) in
  let removal := {| param_filename := Some (storageName w file) |} in
  answerStatus (fst (App.deleteMedia env uploaded removal)) = Some 200 /\
  files (snd (App.deleteMedia env uploaded removal))
    = delete (storagePath env w file) (files w) /\
  uploads (snd (App.deleteMedia env uploaded removal))
    = List.filter
        (fun r => negb (String.eqb (file_name r) (storageName w file)))
        (uploads w) /\
  (files w !! storagePath env w file = None ->
   files (snd (App.deleteMedia env uploaded removal)) = files w) /\
  (rowsNamed (storageName w file) (uploads w) = [] ->
   uploads (snd (App.deleteMedia env uploaded removal)) = uploads w).
Proof.
  intros Hpart Hstatus Hunlink uploaded removal. subst uploaded removal.
  upload_cases env w req; try discriminate Hstatus.
  assert (file0 = file) as -> by congruence.
  match goal with Hf : files _ = _ |- _ => rename Hf into Hfiles end.
  match goal with Hu : uploads _ = _ |- _ => rename Hu into Huploads end.
  assert (Hnul : Fs.hasNullByte (deletePath env (storageName w file)) = false)
    by assumption.
  assert (Hthere : files w0 !! deletePath env (storageName w file) <> None).
  { rewrite Hfiles. unfold deletePath. fold (storagePath env w file).
    now rewrite lookup_insert_eq. }
  assert (Hfiles' : delete (deletePath env (storageName w file)) (files w0)
                    = delete (storagePath env w file) (files w)).
  { rewrite Hfiles. unfold deletePath. fold (storagePath env w file).
    apply delete_insert_eq. }
  assert (Hrows : List.filter
                    (fun r => negb (String.eqb (file_name r)
                                               (storageName w file)))
                    (uploads w0)
                  = List.filter
                      (fun r => negb (String.eqb (file_name r)
                                                 (storageName w file)))
                      (uploads w)).
  { rewrite Huploads, List.filter_app. cbn [List.filter file_name].
    rewrite String.eqb_refl. cbn [negb]. apply app_nil_r. }
  delete_cases env w0 {| param_filename := Some (storageName w file) |};
    cbn [param_filename] in *;
    try (match goal with
         | Hp : Some _ = Some _ |- _ => injection Hp as <-
         end);
    try congruence.
  - match goal with Hf : Js.falsy _ = true |- _ =>
      rewrite falsy_name in Hf by apply storageName_nonempty end.
    discriminate.
  - match goal with Hu : _ \/ _ |- _ =>
      destruct Hu as [?|(_ & ? & _)] end; congruence.
  - split; [reflexivity |].
    match goal with Hf : files _ = delete _ _ |- _ => rewrite Hf end.
    match goal with Hu : uploads _ = List.filter _ _ |- _ => rewrite Hu end.
    rewrite Hfiles', Hrows.
    split; [reflexivity |]. split; [reflexivity |]. split.
    + intros Hfree. now apply delete_id.
    + apply filter_none_named.
Qed.

End Agreement.

(** ** The further properties on sample requests *)

Lemma name_without_dot_gets_bare_token_witness :
  hasDot (originalname Scenario.readme) = false /\
  fst (App.filename Scenario.readme Sample.env Sample.world)
    = Ok (Buffer.toHex (map (entropy Sample.world) (seq 0 16))) /\
  String.length (storageName Sample.world Scenario.readme) = 32%nat.
Proof.
  split; [reflexivity |].
  apply (name_without_dot_gets_bare_token Sample.env Sample.world
           Scenario.readme).
  reflexivity.
Defined.

Lemma ordinary_name_keeps_last_extension_witness :
  originalname Scenario.archive = "backup.tar" +:+ "." +:+ "GZ" /\
  noSeparator "backup.tar" /\ noSeparator "GZ" /\ hasDot "GZ" = false /\
  "backup.tar" <> "" /\ originalname Scenario.archive <> ".." /\
  fst (App.filename Scenario.archive Sample.env Sample.world)
    = Ok (Buffer.toHex (map (entropy Sample.world) (seq 0 16))
            +:+ "." +:+ "GZ").
Proof.
  split; [reflexivity |]. split; [reflexivity |]. split; [reflexivity |].
  split; [reflexivity |]. split; [discriminate |]. split; [discriminate |].
  apply (ordinary_name_keeps_last_extension Sample.env Sample.world
           Scenario.archive "backup.tar" "GZ");
    (reflexivity || discriminate).
Defined.

Lemma dotfile_gets_bare_token_witness :
  originalname Scenario.dotfile = "." +:+ "bashrc" /\
  noSeparator "bashrc" /\ hasDot "bashrc" = false /\
  fst (App.filename Scenario.dotfile Sample.env Sample.world)
    = Ok (Buffer.toHex (map (entropy Sample.world) (seq 0 16))).
Proof.
  split; [reflexivity |]. split; [reflexivity |]. split; [reflexivity |].
  apply (dotfile_gets_bare_token Sample.env Sample.world Scenario.dotfile
           "bashrc"); reflexivity.
Defined.

Lemma equal_names_come_from_equal_bytes_witness :
  storageName Sample.world Sample.photo
    = storageName Sample.world Scenario.portrait /\
  map (entropy Sample.world) (seq 0 16)
    = map (entropy Sample.world) (seq 0 16) /\
  Path.extname (originalname Sample.photo)
    = Path.extname (originalname Scenario.portrait).
Proof.
  split; [reflexivity |].
  apply (equal_names_come_from_equal_bytes Sample.world Sample.world
           Sample.photo Scenario.portrait).
  reflexivity.
Defined.

Lemma failed_insert_leaves_the_file_witness :
  req_part (Sample.request (Some Sample.photo)) = Some Sample.photo /\
  originalname Sample.photo <> "" /\
  fieldname Sample.photo = "file" /\
  In (mimetype Sample.photo) App.allowedTypes /\
  Fs.hasNullByte
    (storagePath Scenario.databaseDown Sample.world Sample.photo) = false /\
  write_error Scenario.databaseDown = None /\
  query_error Scenario.databaseDown = Some "connect ECONNREFUSED" /\
  fst (App.postMedia Scenario.databaseDown Sample.world
         (Sample.request (Some Sample.photo)))
    = Sent {| res_status := 500;
              res_body := JsonError "Internal Server Error"
                                    (Some "connect ECONNREFUSED") |} /\
  files (snd (App.postMedia Scenario.databaseDown Sample.world
                (Sample.request (Some Sample.photo))))
    !! storagePath Scenario.databaseDown Sample.world Sample.photo
    = Some (content Sample.photo) /\
  uploads (snd (App.postMedia Scenario.databaseDown Sample.world
                  (Sample.request (Some Sample.photo))))
    = uploads Sample.world /\
  In "connect ECONNREFUSED"
     (console (snd (App.postMedia Scenario.databaseDown Sample.world
                      (Sample.request (Some Sample.photo))))).
Proof.
  split; [reflexivity |]. split; [discriminate |]. split; [reflexivity |].
  split; [left; reflexivity |]. split; [vm_compute; reflexivity |].
  split; [reflexivity |]. split; [reflexivity |].
  apply (failed_insert_leaves_the_file Scenario.databaseDown Sample.world
           (Sample.request (Some Sample.photo)) Sample.photo
           "connect ECONNREFUSED");
    try reflexivity; [discriminate | left; reflexivity].
Defined.

Lemma other_field_is_refused_witness :
  req_part (Sample.request (Some Scenario.avatar)) = Some Scenario.avatar /\
  originalname Scenario.avatar <> "" /\
  fieldname Scenario.avatar <> "file" /\
  fst (App.postMedia Sample.env Sample.world
         (Sample.request (Some Scenario.avatar)))
    = Sent (Express.defaultErrorHandler Multer.unexpectedFile) /\
  answerStatus (fst (App.postMedia Sample.env Sample.world
                       (Sample.request (Some Scenario.avatar)))) = Some 500 /\
  snd (App.postMedia Sample.env Sample.world
         (Sample.request (Some Scenario.avatar)))
    = Express.logerror Multer.unexpectedFile Sample.env Sample.world /\
  files (snd (App.postMedia Sample.env Sample.world
                (Sample.request (Some Scenario.avatar))))
    = files Sample.world /\
  uploads (snd (App.postMedia Sample.env Sample.world
                  (Sample.request (Some Scenario.avatar))))
    = uploads Sample.world /\
  next_id (snd (App.postMedia Sample.env Sample.world
                  (Sample.request (Some Scenario.avatar))))
    = next_id Sample.world /\
  log (snd (App.postMedia Sample.env Sample.world
              (Sample.request (Some Scenario.avatar))))
    = log Sample.world.
Proof.
  split; [reflexivity |]. split; [discriminate |]. split; [discriminate |].
  apply (other_field_is_refused Sample.env Sample.world
           (Sample.request (Some Scenario.avatar)) Scenario.avatar);
    (reflexivity || discriminate).
Defined.

Lemma second_delete_is_not_found_witness :
  answerStatus (fst (App.deleteMedia Sample.env Sample.world Sample.stored))
    = Some 200 /\
  answerStatus (fst (App.deleteMedia Sample.env
                       (snd (App.deleteMedia Sample.env Sample.world
                               Sample.stored)) Sample.stored)) = Some 404 /\
  files (snd (App.deleteMedia Sample.env
                (snd (App.deleteMedia Sample.env Sample.world Sample.stored))
                Sample.stored))
    = files (snd (App.deleteMedia Sample.env Sample.world Sample.stored)) /\
  uploads (snd (App.deleteMedia Sample.env
                  (snd (App.deleteMedia Sample.env Sample.world
                          Sample.stored)) Sample.stored))
    = uploads (snd (App.deleteMedia Sample.env Sample.world Sample.stored)).
Proof.
  split; [vm_compute; reflexivity |].
  apply (second_delete_is_not_found Sample.env Sample.world Sample.stored).
  vm_compute; reflexivity.
Defined.

Lemma upload_keeps_rows_with_files_witness :
  Consistent Sample.env Sample.world /\
  Consistent Sample.env
    (snd (App.postMedia Sample.env Sample.world
            (Sample.request (Some Sample.photo)))).
Proof.
  assert (H : Consistent Sample.env Sample.world).
  { intros row [<-|[]]. split; [split; reflexivity |].
    split; [reflexivity |]. vm_compute. discriminate. }
  split; [exact H |].
  apply (upload_keeps_rows_with_files Sample.env Sample.world
           (Sample.request (Some Sample.photo)) H).
Defined.

Lemma delete_keeps_rows_with_files_witness :
  Consistent Sample.env Sample.world /\
  param_filename Sample.stored = Some "0a.png" /\
  plainName "0a.png" /\
  answerStatus (fst (App.deleteMedia Sample.env Sample.world Sample.stored))
    <> Some 500 /\
  Consistent Sample.env
    (snd (App.deleteMedia Sample.env Sample.world Sample.stored)).
Proof.
  assert (H : Consistent Sample.env Sample.world).
  { intros row [<-|[]]. split; [split; reflexivity |].
    split; [reflexivity |]. vm_compute. discriminate. }
  assert (Hs : answerStatus (fst (App.deleteMedia Sample.env Sample.world
                                    Sample.stored)) <> Some 500).
  { vm_compute. discriminate. }
  split; [exact H |]. split; [reflexivity |].
  split; [split; reflexivity |]. split; [exact Hs |].
  apply (delete_keeps_rows_with_files Sample.env Sample.world Sample.stored
           "0a.png" H eq_refl (conj eq_refl eq_refl) Hs).
Defined.

Lemma dotted_name_removes_file_but_keeps_rows_witness :
  validDisk Sample.world /\
  plainName "0a.png" /\
  unlink_error Sample.env = None /\ query_error Sample.env = None /\
  files Sample.world !! (App.uploadsDir Sample.env +:+ "/" +:+ "0a.png")
    <> None /\
  answerStatus (fst (App.deleteMedia Sample.env Sample.world
                       {| param_filename := Some ("./" +:+ "0a.png") |}))
    = Some 200 /\
  files (snd (App.deleteMedia Sample.env Sample.world
                {| param_filename := Some ("./" +:+ "0a.png") |}))
    !! (App.uploadsDir Sample.env +:+ "/" +:+ "0a.png") = None /\
  rowsNamed "0a.png"
    (uploads (snd (App.deleteMedia Sample.env Sample.world
                     {| param_filename := Some ("./" +:+ "0a.png") |})))
  = rowsNamed "0a.png" (uploads Sample.world).
Proof.
  assert (Hd : validDisk Sample.world).
  { intros path Hpath. unfold Sample.world in Hpath. cbn [files] in Hpath.
    destruct (decide (path = "/srv/app/app.js")) as [->|Hjs];
      [reflexivity |].
    destruct (decide (path = "/srv/app/uploads/0a.png")) as [->|Hpng];
      [reflexivity |].
    elim Hpath.
    rewrite lookup_insert_ne by congruence.
    apply lookup_singleton_ne. congruence. }
  assert (Hf : files Sample.world
                 !! (App.uploadsDir Sample.env +:+ "/" +:+ "0a.png")
               <> None).
  { vm_compute. discriminate. }
  split; [exact Hd |].
  split; [split; reflexivity |]. split; [reflexivity |].
  split; [reflexivity |]. split; [exact Hf |].
  apply (dotted_name_removes_file_but_keeps_rows Sample.env Sample.world
           "0a.png" Hd (conj eq_refl eq_refl) eq_refl eq_refl Hf).
Defined.

Lemma upload_then_delete_restores_witness :
  req_part (Sample.request (Some Sample.photo)) = Some Sample.photo /\
  answerStatus (fst (App.postMedia Sample.env Sample.world
                       (Sample.request (Some Sample.photo)))) = Some 200 /\
  unlink_error Sample.env = None /\
  answerStatus
    (fst (App.deleteMedia Sample.env
            (snd (App.postMedia Sample.env Sample.world
                    (Sample.request (Some Sample.photo))))
            {| param_filename :=
                 Some (storageName Sample.world Sample.photo) |}))
    = Some 200 /\
  files
    (snd (App.deleteMedia Sample.env
            (snd (App.postMedia Sample.env Sample.world
                    (Sample.request (Some Sample.photo))))
            {| param_filename :=
                 Some (storageName Sample.world Sample.photo) |}))
    = files Sample.world /\
  uploads
    (snd (App.deleteMedia Sample.env
            (snd (App.postMedia Sample.env Sample.world
                    (Sample.request (Some Sample.photo))))
            {| param_filename :=
                 Some (storageName Sample.world Sample.photo) |}))
    = uploads Sample.world.
Proof.
  assert (Hs : answerStatus (fst (App.postMedia Sample.env Sample.world
                                    (Sample.request (Some Sample.photo))))
               = Some 200).
  { vm_compute. reflexivity. }
  split; [reflexivity |]. split; [exact Hs |]. split; [reflexivity |].
  destruct (upload_then_delete_restores Sample.env Sample.world
              (Sample.request (Some Sample.photo)) Sample.photo
              eq_refl Hs eq_refl)
    as (H200 & _ & _ & Hfiles & Hrows).
  split; [exact H200 |]. split.
  - apply Hfiles. vm_compute. reflexivity.
  - apply Hrows. vm_compute. reflexivity.
Defined.
